(** * A 3D model driven by an Arduino joystick: the control core of [index.py]

    The development embeds the two functions that carry the control logic of
    the program,

    - [read_joystick_data], the decoder of the serial line protocol, and
    - [ModelController.update_from_joystick], the state transition of the
      model,

    together with the two lines of the main loop that connect them, and
    then the rest of the program around them: the drawing of a frame
    ([apply_transformations], [render_model]), the start-up
    ([load_3d_model], [initialize_serial]), the main loop with its events,
    and the exit status of the process.

    Numbers.  Python [int] is [Z].  Python [float] is modelled by the exact
    rationals [Q]: every constant of the program is a decimal fraction, and
    the operations the controller uses ([+], [-], [*], [/], [abs], [max],
    [%], comparisons) are the rational ones.  Rounding of IEEE doubles is
    outside the model; equality of floats is [Qeq] ([==]). *)

From Stdlib Require Import ZArith QArith Qabs Qround Lqa Lia.
From Stdlib Require Import List Bool NArith Decimal DecimalZ.
From Stdlib.Strings Require Import Byte String.
Import ListNotations.

Local Open Scope Q_scope.

(** ** Configuration constants *)

Module Config.

Definition SERIAL_TIMEOUT : Z := 1.

Definition JOYSTICK_CENTER : Z := 512.
Definition JOYSTICK_MAX : Q := 512.
Definition MOVEMENT_SPEED : Q := 0.1.
Definition ROTATION_SPEED : Q := 2.
Definition JUMP_HEIGHT : Q := 0.2.

Definition MODEL_SCALE : Q := 0.01.
Definition TARGET_FPS : Z := 60.

End Config.

(** ** Float operations of Python, on rationals *)

Definition Qlt_bool (a b : Q) : bool := negb (Qle_bool b a).

(** [max(a, b)] of Python: the first argument unless the second is greater. *)
Definition py_max (a b : Q) : Q := if Qlt_bool a b then b else a.

(** [a % m] of Python on floats, for a positive modulus: the remainder takes
    the sign of the divisor, [a - m * floor (a / m)]. *)
Definition float_mod (a m : Q) : Q := a - m * inject_Z (Qfloor (a / m)).

(** ** The model state *)

(** A three-element Python list of floats, read and written at the constant
    indices 0, 1 and 2. *)
Record vec3 : Set := Vec3 { at0 : Q; at1 : Q; at2 : Q }.

Definition set_at0 (v : vec3) (q : Q) : vec3 := Vec3 q (at1 v) (at2 v).
Definition set_at1 (v : vec3) (q : Q) : vec3 := Vec3 (at0 v) q (at2 v).

Record ModelController : Set := mkModelController {
  position : vec3;   (* x, y, z coordinates *)
  rotation : vec3;   (* rotation around the x, y, z axes, in degrees *)
  velocity : vec3
}.

(** [ModelController.__init__] *)
Definition init : ModelController :=
  mkModelController (Vec3 0 0 0) (Vec3 0 0 0) (Vec3 0 0 0).

Definition with_position (self : ModelController) (p : vec3) : ModelController :=
  mkModelController p (rotation self) (velocity self).

Definition with_rotation (self : ModelController) (r : vec3) : ModelController :=
  mkModelController (position self) r (velocity self).

(** Names of the components the claims speak about. *)
Definition pos_x (s : ModelController) : Q := at0 (position s).
Definition pos_y (s : ModelController) : Q := at1 (position s).
Definition pos_z (s : ModelController) : Q := at2 (position s).
Definition pitch (s : ModelController) : Q := at0 (rotation s).
Definition yaw (s : ModelController) : Q := at1 (rotation s).
Definition roll (s : ModelController) : Q := at2 (rotation s).

(** A decoded joystick sample: [(x_axis, y_axis, button_pressed)]. *)
Definition sample : Set := (Z * Z * bool)%type.

(** ** [ModelController.update_from_joystick] *)

Definition normalize (axis : Z) : Q :=
  inject_Z (axis - Config.JOYSTICK_CENTER) / Config.JOYSTICK_MAX.

Definition apply_deadzone (deadzone v : Q) : Q :=
  if Qlt_bool (Qabs v) deadzone then 0 else v.

Definition update_from_joystick (self : ModelController)
    (joystick_data : option sample) : ModelController :=
  match joystick_data with
  | None => self
  | Some (x_axis, y_axis, button_pressed) =>
      let x_normalized := normalize x_axis in
      let y_normalized := normalize y_axis in
      let deadzone := 0.1 in
      let x_normalized := apply_deadzone deadzone x_normalized in
      let y_normalized := apply_deadzone deadzone y_normalized in
      (* horizontal movement *)
      let self := with_position self
        (set_at0 (position self)
           (at0 (position self) + x_normalized * Config.MOVEMENT_SPEED)) in
      (* rotation around the Y axis *)
      let self := with_rotation self
        (set_at1 (rotation self)
           (at1 (rotation self) + y_normalized * Config.ROTATION_SPEED)) in
      let self := with_rotation self
        (set_at1 (rotation self) (float_mod (at1 (rotation self)) 360)) in
      (* jump button, else gravity *)
      if button_pressed then
        with_position self
          (set_at1 (position self) (at1 (position self) + Config.JUMP_HEIGHT))
      else if Qlt_bool 0 (at1 (position self)) then
        with_position self
          (set_at1 (position self) (py_max 0 (at1 (position self) - 0.05)))
      else self
  end.

(** The controller after a sequence of ticks, each with its optional sample. *)
Definition run_from (s : ModelController) (inputs : list (option sample))
  : ModelController := fold_left update_from_joystick inputs s.

Definition run (inputs : list (option sample)) : ModelController :=
  run_from init inputs.

(** A state like [s] at another height, and one facing another way: the
    states the examples of the specification start from. *)
Definition at_height (s : ModelController) (y : Q) : ModelController :=
  with_position s (set_at1 (position s) y).

Definition facing (s : ModelController) (angle : Q) : ModelController :=
  with_rotation s (set_at1 (rotation s) angle).


(** The vertical step as the specification words it for a tick on which the
    button is not pressed: above the ground, fall by the fall rate, not
    below the ground. *)
Definition spec_fall (y : Q) : Q :=
  if Qlt_bool 0 y then py_max 0 (y - 0.05) else y.

(** ** Text: what [bytes.decode('utf-8')], [str.strip], [str.split] and
    [int] do

    A [str] is the list of its code points. *)

Definition text : Set := list N.

Definition in_range (lo hi c : N) : bool := ((lo <=? c) && (c <=? hi))%N.

Definition continuation (b : N) : bool := in_range 0x80 0xBF b.

(** [bytes.decode('utf-8')], strict: [None] stands for [UnicodeDecodeError]
    (a stray or missing continuation byte, an overlong form, a surrogate, a
    value above U+10FFFF). *)
Fixpoint utf8_decode (bs : list N) : option text :=
  match bs with
  | [] => Some []
  | b0 :: r0 =>
      if (b0 <? 0x80)%N then option_map (cons b0) (utf8_decode r0)
      else if in_range 0xC2 0xDF b0 then
        match r0 with
        | b1 :: r1 =>
            if continuation b1
            then option_map (cons ((b0 - 0xC0) * 0x40 + (b1 - 0x80))%N)
                            (utf8_decode r1)
            else None
        | _ => None
        end
      else if in_range 0xE0 0xEF b0 then
        match r0 with
        | b1 :: b2 :: r2 =>
            let lo := if (b0 =? 0xE0)%N then 0xA0%N else 0x80%N in
            let hi := if (b0 =? 0xED)%N then 0x9F%N else 0xBF%N in
            if in_range lo hi b1 && continuation b2
            then option_map
                   (cons ((b0 - 0xE0) * 0x1000 + (b1 - 0x80) * 0x40
                          + (b2 - 0x80))%N)
                   (utf8_decode r2)
            else None
        | _ => None
        end
      else if in_range 0xF0 0xF4 b0 then
        match r0 with
        | b1 :: b2 :: b3 :: r3 =>
            let lo := if (b0 =? 0xF0)%N then 0x90%N else 0x80%N in
            let hi := if (b0 =? 0xF4)%N then 0x8F%N else 0xBF%N in
            if in_range lo hi b1 && continuation b2 && continuation b3
            then option_map
                   (cons ((b0 - 0xF0) * 0x40000 + (b1 - 0x80) * 0x1000
                          + (b2 - 0x80) * 0x40 + (b3 - 0x80))%N)
                   (utf8_decode r3)
            else None
        | _ => None
        end
      else None
  end.

(** White space outside ASCII ([str.isspace]). *)
Definition unicode_space (c : N) : bool :=
  (c =? 0x85)%N || (c =? 0xA0)%N || (c =? 0x1680)%N || in_range 0x2000 0x200A c
  || (c =? 0x2028)%N || (c =? 0x2029)%N || (c =? 0x202F)%N || (c =? 0x205F)%N
  || (c =? 0x3000)%N.

(** The characters [str.strip()] removes: tab to carriage return, the four
    separators U+001C to U+001F, the blank, and the white space outside
    ASCII. *)
Definition strip_space (c : N) : bool :=
  in_range 0x09 0x0D c || in_range 0x1C 0x1F c || (c =? 0x20)%N || unicode_space c.

(** The characters [int] skips around a number: as above, without the four
    separators U+001C to U+001F. *)
Definition int_space (c : N) : bool :=
  in_range 0x09 0x0D c || (c =? 0x20)%N || unicode_space c.

Fixpoint lstrip (sp : N -> bool) (s : text) : text :=
  match s with
  | c :: s' => if sp c then lstrip sp s' else s
  | [] => []
  end.

Definition strip (s : text) : text :=
  List.rev (lstrip strip_space (List.rev (lstrip strip_space s))).

(** [s.split(sep)] for a one-character separator: never the empty list. *)
Fixpoint split (sep : N) (s : text) : list text :=
  match s with
  | [] => [[]]
  | c :: s' =>
      if (c =? sep)%N then [] :: split sep s'
      else match split sep s' with
           | t :: ts => (c :: t) :: ts
           | [] => [[c]]
           end
  end.

Definition comma : N := 44.
Definition plus_sign : N := 43.
Definition minus_sign : N := 45.
Definition underscore : N := 95.

(** The value of a decimal digit.  Only the ASCII digits are in the table:
    [int] also reads the decimal digits of other scripts (Unicode category
    Nd above U+007F), which need the Unicode database and which the wire
    format never uses; a token written with them is rejected here. *)
Definition digit_value (c : N) : option Z :=
  if in_range 48 57 c then Some (Z.of_N c - 48)%Z else None.

(** The digits of a literal, with single underscores allowed between digits:
    the value read so far, whether a digit was seen, and the rest.  [None]
    when two underscores meet or the digits end with one. *)
Fixpoint scan_digits (prev_underscore : bool) (acc : Z) (seen : bool) (s : text)
  : option (Z * bool * text) :=
  match s with
  | [] => if prev_underscore then None else Some (acc, seen, [])
  | c :: s' =>
      match digit_value c with
      | Some d => scan_digits false (10 * acc + d)%Z true s'
      | None =>
          if (c =? underscore)%N then
            if prev_underscore then None else scan_digits true acc seen s'
          else if prev_underscore then None else Some (acc, seen, s)
      end
  end.

(** [int(s)] for a [str], base 10: [None] stands for [ValueError].  (The
    limit on the number of digits of recent interpreters, 4300 by default,
    is not modelled.) *)
Definition py_int (s : text) : option Z :=
  let s := lstrip int_space s in
  let '(negative, s) :=
    match s with
    | c :: s' =>
        if (c =? plus_sign)%N then (false, s')
        else if (c =? minus_sign)%N then (true, s')
        else (false, s)
    | [] => (false, s)
    end in
  match s with
  | c :: _ =>
      if (c =? underscore)%N then None
      else
        match scan_digits false 0 false s with
        | Some (v, true, rest) =>
            match lstrip int_space rest with
            | [] => Some (if negative then - v else v)%Z
            | _ :: _ => None
            end
        | _ => None
        end
  | [] => None
  end.

(** ** Exceptions *)

Inductive exn : Set := ValueError | UnicodeDecodeError | SerialException.

(** A computation that returns or raises. *)
Definition result (A : Type) : Type := (exn + A)%type.

Definition ret {A : Type} (a : A) : result A := inr a.
Definition raise {A : Type} (e : exn) : result A := inl e.

Definition bind {A B : Type} (m : result A) (k : A -> result B) : result B :=
  match m with
  | inl e => inl e
  | inr a => k a
  end.

Notation "'do' x <- m ; k" := (bind m (fun x => k))
  (at level 10, x pattern, m at level 100, k at level 200).

Definition or_raise {A : Type} (e : exn) (o : option A) : result A :=
  match o with
  | Some a => ret a
  | None => raise e
  end.

(** [try: body except handled: return fallback] *)
Definition try_except {A : Type} (body : result A) (handled : exn -> bool)
    (fallback : A) : result A :=
  match body with
  | inl e => if handled e then ret fallback else raise e
  | inr a => ret a
  end.

(** ** The serial channel

    The port is the queue of bytes received and not read yet.  [in_waiting]
    is its length.  [readline] hands out the bytes up to and including the
    first newline; when no newline is buffered it has to wait for more
    bytes, for at most the read timeout the port was opened with
    ([Config.SERIAL_TIMEOUT] seconds), and then hands out what there is.
    Bytes that arrive while a call runs are outside the model, so a waiting
    [readline] returns the incomplete line. *)

Record Serial : Set := mkSerial { in_buffer : list byte }.

Definition in_waiting (ser : Serial) : nat := List.length (in_buffer ser).

Definition newline : byte := x0a.

(** The bytes through the first newline, whether one was found, the rest. *)
Fixpoint until_newline (bs : list byte) : list byte * bool * list byte :=
  match bs with
  | [] => ([], false, [])
  | b :: bs' =>
      if Byte.eqb b newline then ([b], true, bs')
      else let '(l, found, rest) := until_newline bs' in (b :: l, found, rest)
  end.

(** What a caller can observe of one operation on the channel. *)
Inductive channel_op : Set :=
| OpInWaiting (n : nat)
| OpReadline (line : list byte) (waited : bool).

Definition readline (ser : Serial) : list byte * Serial * channel_op :=
  let '(line, found, rest) := until_newline (in_buffer ser) in
  (line, mkSerial rest, OpReadline line (negb found)).

(** ** [read_joystick_data] *)

(** The three values unpacked from [map(int, tokens)]: the iterator is asked
    for a fourth item after the third, and any other number of items is a
    [ValueError], like a token that [int] rejects. *)
Definition unpack3 (tokens : list text) : result (Z * Z * Z) :=
  match tokens with
  | t1 :: t2 :: t3 :: more =>
      do x <- or_raise ValueError (py_int t1) ;
      do y <- or_raise ValueError (py_int t2) ;
      do b <- or_raise ValueError (py_int t3) ;
      match more with
      | [] => ret (x, y, b)
      | t4 :: _ => do _ <- or_raise ValueError (py_int t4) ; raise ValueError
      end
  | [t1; t2] =>
      do _ <- or_raise ValueError (py_int t1) ;
      do _ <- or_raise ValueError (py_int t2) ;
      raise ValueError
  | [t1] => do _ <- or_raise ValueError (py_int t1) ; raise ValueError
  | [] => raise ValueError
  end.

(** The body of the [try] block, from the bytes [readline] returned. *)
Definition decode_line (raw : list byte) : result (option sample) :=
  do decoded <- or_raise UnicodeDecodeError (utf8_decode (map Byte.to_N raw)) ;
  let line := strip decoded in
  match line with
  | [] => ret None
  | _ :: _ =>
      do (x_axis, y_axis, button) <- unpack3 (split comma line) ;
      if negb ((0 <=? x_axis) && (x_axis <=? 1023)
               && (0 <=? y_axis) && (y_axis <=? 1023))%Z
      then ret None
      else
        let button_pressed := (button =? 0)%Z in
        ret (Some (x_axis, y_axis, button_pressed))
  end.

Definition handled (e : exn) : bool :=
  match e with
  | ValueError | SerialException | UnicodeDecodeError => true
  end.

(** The [try] block with its [except] clause, which returns [None] for the
    three exceptions it names. *)
Definition try_block (raw : list byte) : result (option sample) :=
  try_except (decode_line raw) handled None.

(** One call: its result, the port afterwards, the operations it made on the
    channel. *)
Record poll : Type := mkPoll {
  outcome : result (option sample);
  port : option Serial;
  trace : list channel_op
}.

Definition read_joystick_data (ser : option Serial) : poll :=
  match ser with
  | None => mkPoll (ret None) None []
  | Some s =>
      let n := in_waiting s in
      if Nat.eqb n 0 then mkPoll (ret None) (Some s) [OpInWaiting n]
      else
        let '(raw, s', op) := readline s in
        mkPoll (try_block raw) (Some s') [OpInWaiting n; op]
  end.

(** ** One iteration of the main loop: poll the joystick, update the model

    An exception out of [read_joystick_data] would leave the loop before the
    update; the controller is then the one before the call. *)

Definition tick (st : option Serial * ModelController)
  : option Serial * ModelController :=
  let '(serial_connection, controller) := st in
  let p := read_joystick_data serial_connection in
  match outcome p with
  | inr joystick_data => (port p, update_from_joystick controller joystick_data)
  | inl _ => (port p, controller)
  end.

(** ** Frames as the device writes them *)

Fixpoint uint_digits (d : uint) : list byte :=
  match d with
  | Nil => []
  | D0 l => "0"%byte :: uint_digits l
  | D1 l => "1"%byte :: uint_digits l
  | D2 l => "2"%byte :: uint_digits l
  | D3 l => "3"%byte :: uint_digits l
  | D4 l => "4"%byte :: uint_digits l
  | D5 l => "5"%byte :: uint_digits l
  | D6 l => "6"%byte :: uint_digits l
  | D7 l => "7"%byte :: uint_digits l
  | D8 l => "8"%byte :: uint_digits l
  | D9 l => "9"%byte :: uint_digits l
  end.

(** [str(z)] for an [int], as bytes: a minus sign when negative, no leading
    zero, ["0"] for zero. *)
Definition py_str (z : Z) : list byte :=
  match Z.to_int z with
  | Pos d => uint_digits d
  | Neg d => "-"%byte :: uint_digits d
  end.

(** The line [f"{x},{y},{b}"]. *)
Definition frame (x y b : Z) : list byte :=
  py_str x ++ ","%byte :: py_str y ++ ","%byte :: py_str b.


(** Line ends and blanks of ASCII, which [strip] removes. *)
Definition blank_byte (b : byte) : bool :=
  let c := Byte.to_N b in
  in_range 0x09 0x0D c || in_range 0x1C 0x1F c || (c =? 0x20)%N.

Definition bytes (s : string) : list byte := list_byte_of_string s.








(** A stream of frames as it sits in the port: each followed by a newline. *)
Definition stream (frames : list (list byte)) : list byte :=
  List.concat (map (fun f => f ++ [newline]) frames).

(** The state after [n] iterations of the main loop. *)
Definition ticks (n : nat) (st : option Serial * ModelController)
  : option Serial * ModelController := Nat.iter n tick st.






Definition no_newline (bs : list byte) : bool :=
  forallb (fun b => negb (Byte.eqb b newline)) bs.

(** ** Notions used in the statements *)

(** The invariant of the yaw. *)
Definition yaw_in_range (s : ModelController) : Prop := 0 <= yaw s /\ yaw s < 360.

(** The range check of the decoder on the two axes. *)
Definition in_adc_range (x y : Z) : bool :=
  ((0 <=? x) && (x <=? 1023) && (0 <=? y) && (y <=? 1023))%Z.






(** The lines the decoder turns into a sample. *)
Definition accepted (raw : list byte) (smp : sample) : Prop :=
  exists (decoded t1 t2 t3 : text) (button : Z),
    utf8_decode (map Byte.to_N raw) = Some decoded
    /\ split comma (strip decoded) = [t1; t2; t3]
    /\ py_int t1 = Some (fst (fst smp))
    /\ py_int t2 = Some (snd (fst smp))
    /\ py_int t3 = Some button
    /\ in_adc_range (fst (fst smp)) (snd (fst smp)) = true
    /\ snd smp = (button =? 0)%Z.


(** The three frames of the end-to-end scenario, buffered in the port, and
    the controller after [n] iterations of the loop on them. *)
Definition scenario : list byte :=
  stream [bytes "612,512,1"; bytes "612,512,1"; bytes "412,400,0"].


(** * Further notions: runs of the controller *)





(** The sample a complete line decodes to ([None] when it is dropped). *)
Definition decoded (line : list byte) : option sample :=
  match try_block (line ++ [newline]) with
  | inr v => v
  | inl _ => None
  end.

(** * Rendering

    The calls a function makes on OpenGL and on the display are recorded in
    the order it makes them.  A mesh of the loaded scene is its array of
    vertices and its array of normals, which is empty when the file has
    none. *)

Inductive draw_op : Set :=
| glClear                          (* colour and depth buffers *)
| glPushMatrix
| glPopMatrix
| glTranslatef (x y z : Q)
| glRotatef (angle x y z : Q)
| glScalef (x y z : Q)
| glEnable_NORMALIZE
| glBegin_TRIANGLES
| glEnd
| glNormal3fv (n : vec3)
| glVertex3fv (v : vec3)
| display_flip
| clock_tick (fps : Z).

Record Mesh : Set := mkMesh { vertices : list vec3; normals : list vec3 }.

Record Scene : Set := mkScene { meshes : list Mesh }.

(** Exceptions that leave the functions below. *)
Inductive raised : Set :=
| SystemExit (code : Z)
| IndexError
| OtherException.       (* any other subclass of [Exception] *)

(** The calls made so far, and the exception that stopped them, if any. *)
Definition drawing : Set := (list draw_op * option raised)%type.

Definition emit (ops : list draw_op) : drawing := (ops, None).

Definition fail (e : raised) : drawing := ([], Some e).

Definition and_then (a b : drawing) : drawing :=
  match snd a with
  | Some _ => a
  | None => (fst a ++ fst b, snd b)
  end.

(** [for x in l: body(x)] *)
Fixpoint for_each {A : Type} (body : A -> drawing) (l : list A) : drawing :=
  match l with
  | [] => emit []
  | a :: l' => and_then (body a) (for_each body l')
  end.

(** [array[i]]: an index past the end is an [IndexError]. *)
Definition index_then (array : list vec3) (i : nat) (op : vec3 -> draw_op)
  : drawing :=
  match nth_error array i with
  | Some v => emit [op v]
  | None => fail IndexError
  end.

(** ** [ModelController.apply_transformations] *)

Definition apply_transformations (self : ModelController) : list draw_op :=
  [ glTranslatef (at0 (position self)) (at1 (position self)) (at2 (position self));
    glRotatef (at0 (rotation self)) 1 0 0;
    glRotatef (at1 (rotation self)) 0 1 0;
    glRotatef (at2 (rotation self)) 0 0 1;
    glScalef Config.MODEL_SCALE Config.MODEL_SCALE Config.MODEL_SCALE ].

(** ** [render_model] *)

(** [mesh.normals.size > 0]: the number of floats in the array of normals. *)
Definition has_normals (mesh : Mesh) : bool :=
  (0 <? 3 * List.length (normals mesh))%nat.

Definition render_vertex (mesh : Mesh) (i : nat) : drawing :=
  and_then
    (if has_normals mesh then index_then (normals mesh) i glNormal3fv
     else emit [])
    (index_then (vertices mesh) i glVertex3fv).

Definition render_mesh (mesh : Mesh) : drawing :=
  and_then (emit (if has_normals mesh then [glEnable_NORMALIZE] else []))
    (and_then (emit [glBegin_TRIANGLES])
       (and_then
          (for_each (render_vertex mesh)
             (seq 0 (List.length (vertices mesh))))
          (emit [glEnd]))).

Definition render_model (scene : Scene) : drawing :=
  for_each render_mesh (meshes scene).

(** ** The drawing part of one iteration of the main loop *)

Definition render_frame (controller : ModelController) (scene : Scene)
  : drawing :=
  and_then (emit [glClear; glPushMatrix])
    (and_then (emit (apply_transformations controller))
       (and_then (render_model scene)
          (emit [glPopMatrix; display_flip; clock_tick Config.TARGET_FPS]))).

(** ** When a sequence of calls is legal for OpenGL

    Between [glBegin] and [glEnd] only vertex data may be given; [glBegin]
    does not nest; [glEnd] and [glVertex] need an open [glBegin];
    [glPopMatrix] needs an earlier [glPushMatrix].  The state is whether a
    [glBegin] is open and how many matrices have been pushed. *)

Definition gl_step (st : bool * nat) (op : draw_op) : option (bool * nat) :=
  let '(in_begin, depth) := st in
  match op with
  | glBegin_TRIANGLES => if in_begin then None else Some (true, depth)
  | glEnd => if in_begin then Some (false, depth) else None
  | glVertex3fv _ => if in_begin then Some st else None
  | glNormal3fv _ => Some st
  | glPushMatrix => if in_begin then None else Some (false, S depth)
  | glPopMatrix =>
      if in_begin then None
      else match depth with
           | O => None
           | S d => Some (false, d)
           end
  | _ => if in_begin then None else Some st
  end.

Fixpoint gl_run (st : bool * nat) (ops : list draw_op) : option (bool * nat) :=
  match ops with
  | [] => Some st
  | op :: ops' =>
      match gl_step st op with
      | Some st' => gl_run st' ops'
      | None => None
      end
  end.

Definition is_vertex (op : draw_op) : option vec3 :=
  match op with
  | glVertex3fv v => Some v
  | _ => None
  end.

(** The vertices sent to OpenGL, in order. *)
Fixpoint vertices_sent (ops : list draw_op) : list vec3 :=
  match ops with
  | [] => []
  | op :: ops' =>
      match is_vertex op with
      | Some v => v :: vertices_sent ops'
      | None => vertices_sent ops'
      end
  end.

(** A mesh that [render_model] can draw: no normals at all, or at least as
    many normals as vertices. *)
Definition drawable (mesh : Mesh) : bool :=
  Nat.eqb (List.length (normals mesh)) 0
  || (List.length (vertices mesh) <=? List.length (normals mesh))%nat.

(** Vertex data: what may be given between [glBegin] and [glEnd]. *)
Definition vertex_data (op : draw_op) : Prop :=
  match op with
  | glNormal3fv _ | glVertex3fv _ => True
  | _ => False
  end.

(** * Start-up, the main loop, and the end of the process *)

(** ** [load_3d_model]

    The file system and PyAssimp are given by what they answer:
    [file_exists] is [os.path.exists(filepath)], and [loaded] is what
    [pyassimp.load(filepath)] does, a scene or ([None]) an exception of the
    library, a subclass of [Exception]. *)

Inductive message : Set :=
| MsgModelNotFound
| MsgCurrentDirectory
| MsgLoadingModel
| MsgNoMeshes
| MsgModelLoaded (mesh_count vertex_count : nat)
| MsgErrorLoading.

(** [except Exception] does not catch [SystemExit]. *)
Definition is_Exception (e : raised) : bool :=
  match e with
  | SystemExit _ => false
  | IndexError | OtherException => true
  end.

Definition vertex_count (scene : Scene) : nat :=
  list_sum (map (fun mesh => List.length (vertices mesh)) (meshes scene)).

Definition load_3d_model (file_exists : bool) (loaded : option Scene)
  : list message * (raised + Scene) :=
  if negb file_exists then
    ([MsgModelNotFound; MsgCurrentDirectory], inl (SystemExit 1))
  else
    let '(printed, body) :=
      match loaded with
      | None => ([MsgLoadingModel], inl OtherException)
      | Some scene =>
          match meshes scene with
          | [] => ([MsgLoadingModel; MsgNoMeshes], inl (SystemExit 1))
          | _ :: _ =>
              ([MsgLoadingModel;
                MsgModelLoaded (List.length (meshes scene)) (vertex_count scene)],
               inr scene)
          end
      end in
    match body with
    | inl e =>
        if is_Exception e then (printed ++ [MsgErrorLoading], inl (SystemExit 1))
        else (printed, inl e)
    | inr scene => (printed, inr scene)
    end.

(** ** [initialize_serial]

    [opened] is what [serial.Serial(port, baud_rate, timeout=timeout)]
    does.  Only [SerialException] is caught. *)
Definition initialize_serial (opened : exn + Serial) : raised + option Serial :=
  match opened with
  | inr ser => inr (Some ser)
  | inl SerialException => inr None
  | inl _ => inl OtherException
  end.

(** ** The main loop *)

Inductive event : Set :=
| QUIT
| KEYDOWN (key : Z)
| OtherEvent.

Definition K_ESCAPE : Z := 27.

(** The [for event in pygame.event.get()] loop, on the flag [running]. *)
Definition handle_events (running : bool) (events : list event) : bool :=
  fold_left
    (fun running e =>
       match e with
       | QUIT => false
       | KEYDOWN key => if (key =? K_ESCAPE)%Z then false else running
       | OtherEvent => running
       end)
    events running.

Definition is_quit (e : event) : bool :=
  match e with
  | QUIT => true
  | KEYDOWN key => (key =? K_ESCAPE)%Z
  | OtherEvent => false
  end.

(** How the loop ends on the batches of events it is given, one batch for
    each call of [pygame.event.get()]: it stops, or an exception leaves it,
    or the batches are used up while it still runs. *)
Inductive loop_end : Set :=
| Stopped (st : option Serial * ModelController)
| Raised (e : raised)
| Unfinished (st : option Serial * ModelController).

Fixpoint main_loop (scene : Scene) (batches : list (list event))
    (st : option Serial * ModelController) : list draw_op * loop_end :=
  match batches with
  | [] => ([], Unfinished st)
  | events :: later =>
      let running := handle_events true events in
      let st' := tick st in
      let frame := render_frame (snd st') scene in
      match snd frame with
      | Some e => (fst frame, Raised e)
      | None =>
          if running then
            let '(ops, r) := main_loop scene later st' in (fst frame ++ ops, r)
          else (fst frame, Stopped st')
      end
  end.

(** ** [main] and the entry point

    The set-up of the window and of OpenGL at the start of [main] is taken
    to succeed; the model starts where [main] loads the 3D model. *)

Inductive cleanup_op : Set :=
| pyassimp_release
| serial_close
| pygame_quit.

Record world : Type := mkWorld {
  file_exists : bool;
  loaded : option Scene;
  opened : exn + Serial;
  batches : list (list event)
}.

(** What [main] did: whether the serial port was opened, the frames drawn,
    the clean-up calls, and how it ended ([None]: it returned). *)
Record execution : Type := mkRun {
  serial_tried : bool;
  drawn : list draw_op;
  cleaned : list cleanup_op;
  final : option (option Serial * ModelController);
  ended : option (option raised)       (* [None]: the loop still runs *)
}.

Definition main (w : world) : execution :=
  match snd (load_3d_model (file_exists w) (loaded w)) with
  | inl e => mkRun false [] [] None (Some (Some e))
  | inr scene =>
      match initialize_serial (opened w) with
      | inl e => mkRun true [] [] None (Some (Some e))
      | inr serial_connection =>
          match main_loop scene (batches w) (serial_connection, init) with
          | (ops, Raised e) => mkRun true ops [] None (Some (Some e))
          | (ops, Unfinished st) => mkRun true ops [] (Some st) None
          | (ops, Stopped st) =>
              mkRun true ops
                (pyassimp_release
                 :: (match fst st with
                     | Some _ => [serial_close]
                     | None => []
                     end) ++ [pygame_quit])
                (Some st) (Some None)
          end
      end
  end.

(** The exit status of the process: an exception of class [Exception] is
    printed by the entry point, which then ends normally; [SystemExit]
    carries its code. *)
Definition exit_status (w : world) : option Z :=
  match ended (main w) with
  | None => None
  | Some None => Some 0%Z
  | Some (Some (SystemExit code)) => Some code
  | Some (Some _) => Some 0%Z
  end.

Definition flips (ops : list draw_op) : nat :=
  List.length (filter (fun op => match op with display_flip => true | _ => false end) ops).

(** The calls [render_model] can make. *)
Definition render_op (op : draw_op) : Prop :=
  match op with
  | glEnable_NORMALIZE | glBegin_TRIANGLES | glEnd
  | glNormal3fv _ | glVertex3fv _ => True
  | _ => False
  end.

Definition no_quit (events : list event) : bool := negb (existsb is_quit events).

(** ** Facts about the float operations *)

Lemma Qlt_bool_iff (a b : Q) : Qlt_bool a b = true <-> a < b.
Proof.
  unfold Qlt_bool. rewrite negb_true_iff.
  split; intros H.
  - apply Qnot_le_lt. intros Hle. apply Qle_bool_iff in Hle. congruence.
  - destruct (Qle_bool b a) eqn:E; [|reflexivity].
    apply Qle_bool_iff in E. exfalso. apply (Qlt_not_le _ _ H E).
Qed.

Lemma Qlt_bool_false_iff (a b : Q) : Qlt_bool a b = false <-> b <= a.
Proof.
  unfold Qlt_bool. rewrite negb_false_iff. apply Qle_bool_iff.
Qed.

Lemma py_max_lower (a b : Q) : a <= py_max a b.
Proof.
  unfold py_max. destruct (Qlt_bool a b) eqn:E.
  - apply Qlt_bool_iff in E. apply Qlt_le_weak, E.
  - apply Qle_refl.
Qed.

Lemma py_max_left (a b : Q) : b <= a -> py_max a b = a.
Proof.
  intros H. unfold py_max. apply Qlt_bool_false_iff in H. now rewrite H.
Qed.


Lemma float_mod_range (a m : Q) : 0 < m -> 0 <= float_mod a m /\ float_mod a m < m.
Proof.
  intros Hm. unfold float_mod.
  assert (Hne : ~ m == 0) by (intros E; rewrite E in Hm; discriminate).
  pose proof (Qfloor_le (a / m)) as Hlo.
  pose proof (Qlt_floor (a / m)) as Hhi.
  set (k := Qfloor (a / m)) in *.
  assert (Ek1 : inject_Z (k + 1) == inject_Z k + 1)
    by (rewrite inject_Z_plus; reflexivity).
  rewrite Ek1 in Hhi. clear Ek1.
  assert (Ea : a == m * (a / m)) by (field; exact Hne).
  split.
  - assert (m * inject_Z k <= m * (a / m))
      by (apply Qmult_le_l; assumption).
    lra.
  - assert (m * (a / m) < m * (inject_Z k + 1))
      by (apply Qmult_lt_l; assumption).
    lra.
Qed.

Lemma apply_deadzone_inside (d v : Q) : Qabs v < d -> apply_deadzone d v = 0.
Proof.
  intros H. unfold apply_deadzone. apply Qlt_bool_iff in H. now rewrite H.
Qed.

Lemma apply_deadzone_outside (d v : Q) : d <= Qabs v -> apply_deadzone d v = v.
Proof.
  intros H. unfold apply_deadzone. apply Qlt_bool_false_iff in H. now rewrite H.
Qed.

(** ** Component-wise equations of the transition *)

Section Transition.

Variable self : ModelController.
Variables x_axis y_axis : Z.
Variable button_pressed : bool.

Local Notation "'next'" :=
  (update_from_joystick self (Some (x_axis, y_axis, button_pressed))).

Lemma update_pos_x :
  pos_x next
  = pos_x self + apply_deadzone 0.1 (normalize x_axis) * Config.MOVEMENT_SPEED.
Proof.
  unfold update_from_joystick. cbn -[Qplus Qmult Qminus Qdiv Qabs float_mod].
  destruct button_pressed; [reflexivity|].
  destruct (Qlt_bool 0 (at1 (position self))); reflexivity.
Qed.

Lemma update_yaw :
  yaw next
  = float_mod
      (yaw self + apply_deadzone 0.1 (normalize y_axis) * Config.ROTATION_SPEED)
      360.
Proof.
  unfold update_from_joystick. cbn -[Qplus Qmult Qminus Qdiv Qabs float_mod].
  destruct button_pressed; [reflexivity|].
  destruct (Qlt_bool 0 (at1 (position self))); reflexivity.
Qed.

Lemma update_pos_y :
  pos_y next
  = if button_pressed then pos_y self + Config.JUMP_HEIGHT
    else if Qlt_bool 0 (pos_y self) then py_max 0 (pos_y self - 0.05)
    else pos_y self.
Proof.
  unfold update_from_joystick. cbn -[Qplus Qmult Qminus Qdiv Qabs float_mod].
  destruct button_pressed; [reflexivity|].
  unfold pos_y.
  destruct (Qlt_bool 0 (at1 (position self))); reflexivity.
Qed.

Lemma update_untouched :
  pos_z next = pos_z self /\ pitch next = pitch self /\ roll next = roll self
  /\ velocity next = velocity self.
Proof.
  unfold update_from_joystick. cbn -[Qplus Qmult Qminus Qdiv Qabs float_mod].
  destruct button_pressed; [repeat split|].
  destruct (Qlt_bool 0 (at1 (position self))); repeat split.
Qed.

End Transition.

Lemma run_from_app (s : ModelController) (l1 l2 : list (option sample)) :
  run_from s (l1 ++ l2) = run_from (run_from s l1) l2.
Proof. unfold run_from. apply fold_left_app. Qed.

Lemma run_snoc (l : list (option sample)) (o : option sample) :
  run (l ++ [o]) = update_from_joystick (run l) o.
Proof. unfold run. rewrite run_from_app. reflexivity. Qed.

Lemma update_yaw_in_range (s : ModelController) (o : option sample) :
  yaw_in_range s -> yaw_in_range (update_from_joystick s o).
Proof.
  intros Hs. destruct o as [[[x y] b]|]; [|exact Hs].
  unfold yaw_in_range. rewrite update_yaw.
  apply float_mod_range. reflexivity.
Qed.

Lemma run_from_yaw_in_range (inputs : list (option sample)) :
  forall s, yaw_in_range s -> yaw_in_range (run_from s inputs).
Proof.
  induction inputs as [|o inputs IH]; intros s Hs; [exact Hs|].
  cbn. apply IH. apply update_yaw_in_range, Hs.
Qed.

Lemma init_yaw_in_range : yaw_in_range init.
Proof. split; [apply Qle_refl | reflexivity]. Qed.

(** * The state transition *)

(** ** No sample *)

(** C1, as the claim states it, fails: with no sample the height stays where
    it is.  From height 1 the claim promises [spec_fall 1], that is 0.95;
    the program leaves 1. *)
Lemma C1_no_sample_counterexample :
  0 < pos_y (at_height init 1)
  /\ spec_fall (pos_y (at_height init 1)) == 0.95
  /\ pos_y (update_from_joystick (at_height init 1) None) == 1
  /\ ~ pos_y (update_from_joystick (at_height init 1) None)
       == spec_fall (pos_y (at_height init 1)).
Proof.
  repeat split; try reflexivity.
  intros H. vm_compute in H. discriminate H.
Qed.

(** C1, amended: with no sample the transition returns at once and leaves
    the whole state as it is, so [position.x] and [rotation.yaw] are
    unchanged and [position.y] too; the fall by 0.05, stopped at 0, happens
    on a tick whose sample has the button not pressed. *)
Theorem C1_no_sample_leaves_state :
  (forall s : ModelController,
      update_from_joystick s None = s
      /\ pos_x (update_from_joystick s None) = pos_x s
      /\ yaw (update_from_joystick s None) = yaw s
      /\ pos_y (update_from_joystick s None) = pos_y s)
  /\ (forall (s : ModelController) (x y : Z),
         pos_y (update_from_joystick s (Some (x, y, false)))
         = spec_fall (pos_y s)).
Proof.
  split.
  - intros s. repeat split.
  - intros s x y. rewrite update_pos_y. reflexivity.
Qed.

(** ** Yaw *)

(** C5: from the initial state, after any sequence of ticks and one more
    transition with any optional sample, [rotation.yaw] is in [0, 360); the
    update wraps: from 359 a step of +2 degrees (axis value 1024) gives 1,
    and from 0 a step of -2 degrees (axis value 0) gives 358. *)
Theorem C5_yaw_stays_in_range :
  (forall (inputs : list (option sample)) (o : option sample),
      0 <= yaw (update_from_joystick (run inputs) o)
      /\ yaw (update_from_joystick (run inputs) o) < 360)
  /\ (forall (s : ModelController) (x : Z) (b : bool),
         yaw (update_from_joystick (facing s 359) (Some (x, 1024%Z, b))) == 1)
  /\ (forall (s : ModelController) (x : Z) (b : bool),
         yaw (update_from_joystick (facing s 0) (Some (x, 0%Z, b))) == 358).
Proof.
  split; [|split].
  - intros inputs o. rewrite <- run_snoc.
    apply (run_from_yaw_in_range (inputs ++ [o]) init init_yaw_in_range).
  - intros s x b. rewrite update_yaw. reflexivity.
  - intros s x b. rewrite update_yaw. reflexivity.
Qed.

(** ** Height *)

Lemma update_pos_y_nonneg (s : ModelController) (o : option sample) :
  0 <= pos_y s -> 0 <= pos_y (update_from_joystick s o).
Proof.
  intros Hs. destruct o as [[[x y] b]|]; [|exact Hs].
  rewrite update_pos_y. destruct b.
  - assert (0 <= Config.JUMP_HEIGHT) by (unfold Config.JUMP_HEIGHT; lra).
    lra.
  - destruct (Qlt_bool 0 (pos_y s)); [apply py_max_lower | exact Hs].
Qed.

Lemma run_from_pos_y_nonneg (inputs : list (option sample)) :
  forall s, 0 <= pos_y s -> 0 <= pos_y (run_from s inputs).
Proof.
  induction inputs as [|o inputs IH]; intros s Hs; [exact Hs|].
  cbn. apply IH, update_pos_y_nonneg, Hs.
Qed.

(** C6: a transition keeps [position.y >= 0], whatever the optional sample,
    so the height is never negative from the initial state on; the fall
    stops at 0: from 0.03 with the button not pressed the next height is 0. *)
Theorem C6_height_never_negative :
  (forall (s : ModelController) (o : option sample),
      0 <= pos_y s -> 0 <= pos_y (update_from_joystick s o))
  /\ (forall inputs : list (option sample), 0 <= pos_y (run inputs))
  /\ (forall (s : ModelController) (x y : Z),
         pos_y s == 0.03 ->
         pos_y (update_from_joystick s (Some (x, y, false))) == 0).
Proof.
  split; [|split].
  - exact update_pos_y_nonneg.
  - intros inputs. apply run_from_pos_y_nonneg. apply Qle_refl.
  - intros s x y Hy. rewrite update_pos_y.
    assert (Hpos : Qlt_bool 0 (pos_y s) = true) by (apply Qlt_bool_iff; lra).
    rewrite Hpos, py_max_left by lra. reflexivity.
Qed.

Lemma C6_height_never_negative_witness :
  0 <= pos_y (at_height init 1)
  /\ 0 <= pos_y (update_from_joystick (at_height init 1)
                   (Some (512%Z, 512%Z, false)))
  /\ pos_y (at_height init 0.03) == 0.03
  /\ pos_y (update_from_joystick (at_height init 0.03)
              (Some (512%Z, 512%Z, false))) == 0.
Proof.
  assert (H1 : 0 <= pos_y (at_height init 1)) by (vm_compute; discriminate).
  assert (H2 : pos_y (at_height init 0.03) == 0.03) by reflexivity.
  split; [exact H1|]. split; [|split; [exact H2|]].
  - exact (proj1 C6_height_never_negative _ _ H1).
  - exact (proj2 (proj2 C6_height_never_negative) _ _ _ H2).
Defined.

(** ** Deadzone *)

Lemma Qabs_normalize (x : Z) :
  Qabs (normalize x) == Qabs (inject_Z (x - 512)) / 512.
Proof.
  unfold normalize, Config.JOYSTICK_CENTER, Config.JOYSTICK_MAX, Qdiv.
  rewrite Qabs_Qmult. reflexivity.
Qed.

(** C7: for a sample whose x axis is inside the deadzone,
    [|x - 512| / 512 < 0.1], the transition leaves [position.x] unchanged,
    whatever the button and the y axis. *)
Theorem C7_deadzone_keeps_x (s : ModelController) (x y : Z) (b : bool) :
  Qabs (inject_Z (x - 512)) / 512 < 0.1 ->
  pos_x (update_from_joystick s (Some (x, y, b))) == pos_x s.
Proof.
  intros H. rewrite <- Qabs_normalize in H.
  rewrite update_pos_x, (apply_deadzone_inside _ _ H). ring.
Qed.

Lemma C7_deadzone_keeps_x_witness :
  Qabs (inject_Z (540 - 512)) / 512 < 0.1
  /\ pos_x (update_from_joystick (run [Some (700%Z, 512%Z, true)])
              (Some (540%Z, 300%Z, true)))
     == pos_x (run [Some (700%Z, 512%Z, true)]).
Proof.
  assert (H : Qabs (inject_Z (540 - 512)) / 512 < 0.1) by reflexivity.
  split; [exact H|].
  exact (C7_deadzone_keeps_x _ 540%Z 300%Z true H).
Defined.

(** ** Jump *)




(** ** Frame *)

(** C9: a transition changes at most [position.x], [position.y] and
    [rotation.yaw]: [position.z], [rotation.pitch], [rotation.roll] and the
    three components of [velocity] are the same after every call. *)
Theorem C9_untouched_components (s : ModelController) (o : option sample) :
  pos_z (update_from_joystick s o) = pos_z s
  /\ pitch (update_from_joystick s o) = pitch s
  /\ roll (update_from_joystick s o) = roll s
  /\ at0 (velocity (update_from_joystick s o)) = at0 (velocity s)
  /\ at1 (velocity (update_from_joystick s o)) = at1 (velocity s)
  /\ at2 (velocity (update_from_joystick s o)) = at2 (velocity s).
Proof.
  destruct o as [[[x y] b]|]; [|repeat split].
  destruct (update_untouched s x y b) as (Hz & Hp & Hr & Hv).
  split; [exact Hz|]. split; [exact Hp|]. split; [exact Hr|].
  repeat split; [exact (f_equal at0 Hv) | exact (f_equal at1 Hv)
                | exact (f_equal at2 Hv)].
Qed.

(** * The decoder *)

(** ** Text operations on plain characters *)

Lemma utf8_decode_ascii (bs : list N) :
  Forall (fun c => (c <? 0x80)%N = true) bs -> utf8_decode bs = Some bs.
Proof.
  induction 1 as [|c bs Hc _ IH]; [reflexivity|].
  cbn [utf8_decode]. rewrite Hc, IH. reflexivity.
Qed.

Lemma lstrip_head (sp : N -> bool) (c : N) (s : text) :
  sp c = false -> lstrip sp (c :: s) = c :: s.
Proof. intros H. cbn. now rewrite H. Qed.

Lemma lstrip_none (sp : N -> bool) (s : text) :
  Forall (fun c => sp c = false) s -> lstrip sp s = s.
Proof. destruct 1 as [|c s Hc _]; [reflexivity | now apply lstrip_head]. Qed.

Lemma lstrip_spaces (sp : N -> bool) (ws s : text) :
  Forall (fun c => sp c = true) ws -> lstrip sp (ws ++ s) = lstrip sp s.
Proof.
  induction 1 as [|c ws Hc _ IH]; [reflexivity|].
  cbn. now rewrite Hc.
Qed.

Lemma strip_plain (s ws : text) :
  Forall (fun c => strip_space c = false) s ->
  Forall (fun c => strip_space c = true) ws ->
  strip (s ++ ws) = s.
Proof.
  intros Hs Hws. unfold strip.
  assert (E : List.rev (lstrip strip_space (s ++ ws)) = List.rev ws ++ List.rev s
              \/ (s = [] /\ lstrip strip_space (s ++ ws) = [])).
  { destruct Hs as [|c s Hc Hs].
    - right. split; [reflexivity|].
      cbn. rewrite <- (app_nil_r ws), lstrip_spaces by assumption. reflexivity.
    - left. cbn [List.app]. rewrite lstrip_head by assumption.
      change (c :: s ++ ws) with ((c :: s) ++ ws). apply rev_app_distr. }
  destruct E as [E | [-> E]].
  - rewrite E, lstrip_spaces by (apply Forall_rev; assumption).
    rewrite lstrip_none by (apply Forall_rev; assumption).
    apply rev_involutive.
  - rewrite E. reflexivity.
Qed.



(** ** [int] reads what [str] writes *)





Lemma in_range_iff (lo hi c : N) : in_range lo hi c = true <-> (lo <= c <= hi)%N.
Proof. unfold in_range. rewrite andb_true_iff, !N.leb_le. reflexivity. Qed.




Lemma blank_plain (c : N) :
  in_range 0x09 0x0D c || in_range 0x1C 0x1F c || (c =? 0x20)%N = true ->
  strip_space c = true /\ (c <? 0x80)%N = true.
Proof.
  intros H. unfold strip_space. rewrite H. split; [reflexivity|].
  rewrite !orb_true_iff, !in_range_iff, N.eqb_eq in H.
  apply N.ltb_lt. lia.
Qed.

(** [int] on a text that starts with a digit, and on the same text behind a
    sign. *)
Section IntOfDigits.

Variable c : N.
Variable s : text.
Variable v : Z.
Hypothesis Hc : in_range 48 57 c = true.
Hypothesis Hscan : scan_digits false 0 false (c :: s) = Some (v, true, []).




End IntOfDigits.








(** ** Lines of three tokens *)

Lemma map_blank_tail (tail : list byte) :
  forallb blank_byte tail = true ->
  Forall (fun c => strip_space c = true) (map Byte.to_N tail)
  /\ Forall (fun c => (c <? 0x80)%N = true) (map Byte.to_N tail).
Proof.
  intros H. rewrite forallb_forall in H.
  split; apply Forall_forall; intros c Hc; apply in_map_iff in Hc;
    destruct Hc as (b & <- & Hb); apply H in Hb; apply blank_plain in Hb;
    tauto.
Qed.






(** ** What the decoder accepts *)

Lemma try_except_handles (body : result (option sample)) :
  exists v, try_except body handled None = ret v
            /\ (forall e, body = raise e -> v = None)
            /\ (forall v', body = ret v' -> v = v').
Proof.
  destruct body as [e | v].
  - exists None. unfold ret, raise.
    destruct e; repeat split; intros; congruence.
  - exists v. unfold ret, raise. repeat split; intros; congruence.
Qed.

Lemma unpack3_ret (tokens : list text) (x y b : Z) :
  unpack3 tokens = ret (x, y, b) <->
  exists t1 t2 t3,
    tokens = [t1; t2; t3]
    /\ py_int t1 = Some x /\ py_int t2 = Some y /\ py_int t3 = Some b.
Proof.
  split.
  - destruct tokens as [|t1 [|t2 [|t3 more]]]; cbn [unpack3].
    + discriminate.
    + destruct (py_int t1); discriminate.
    + destruct (py_int t1); [destruct (py_int t2)|]; discriminate.
    + destruct (py_int t1) as [x'|] eqn:E1; [|discriminate].
      destruct (py_int t2) as [y'|] eqn:E2; [|discriminate].
      destruct (py_int t3) as [b'|] eqn:E3; [|discriminate].
      cbn [or_raise ret bind].
      destruct more as [|t4 more].
      * intros E. injection E as <- <- <-. exists t1, t2, t3.
        repeat split; assumption.
      * destruct (py_int t4); discriminate.
  - intros (t1 & t2 & t3 & -> & E1 & E2 & E3).
    cbn [unpack3]. rewrite E1, E2, E3. reflexivity.
Qed.

Lemma decode_line_some (raw : list byte) (smp : sample) :
  decode_line raw = ret (Some smp) <-> accepted raw smp.
Proof.
  unfold decode_line, accepted. split.
  - destruct (utf8_decode (map Byte.to_N raw)) as [decoded|]; [|discriminate].
    cbn [or_raise ret bind].
    destruct (strip decoded) as [|c line] eqn:Eline; [discriminate|].
    destruct (unpack3 (split comma (c :: line))) as [e | [[x y] b]] eqn:Eun;
      [discriminate|].
    cbn [bind]. fold (in_adc_range x y).
    destruct (in_adc_range x y) eqn:Erange; cbn [negb]; [|discriminate].
    intros E. injection E as <-.
    apply unpack3_ret in Eun. destruct Eun as (t1 & t2 & t3 & Es & E1 & E2 & E3).
    exists decoded, t1, t2, t3, b. cbn [fst snd]. rewrite Eline. repeat split; assumption.
  - intros (decoded & t1 & t2 & t3 & b & Edec & Es & E1 & E2 & E3 & Er & Ep).
    destruct smp as [[x y] p]. cbn [fst snd] in *.
    rewrite Edec. cbn [or_raise ret bind].
    destruct (strip decoded) as [|c line] eqn:Eline; [discriminate Es|].
    assert (Eun : unpack3 (split comma (c :: line)) = ret (x, y, b))
      by (apply unpack3_ret; exists t1, t2, t3; repeat split; assumption).
    rewrite Eun. cbn [bind ret]. unfold in_adc_range in Er.
    rewrite Er. cbn [negb]. subst p. reflexivity.
Qed.

Lemma try_block_some (raw : list byte) (smp : sample) :
  try_block raw = ret (Some smp) <-> accepted raw smp.
Proof.
  rewrite <- decode_line_some. unfold try_block.
  destruct (decode_line raw) as [e | v]; cbn [try_except].
  - destruct e; cbn [handled]; split; discriminate.
  - reflexivity.
Qed.

Lemma try_block_returns (raw : list byte) : exists v, try_block raw = ret v.
Proof.
  unfold try_block.
  destruct (try_except_handles (decode_line raw)) as (v & E & _). eauto.
Qed.





(** * The channel *)

Lemma until_newline_complete (l rest : list byte) :
  no_newline l = true ->
  until_newline (l ++ newline :: rest) = (l ++ [newline], true, rest).
Proof.
  induction l as [|b l IH]; intros H; [reflexivity|].
  cbn [no_newline forallb] in H. apply andb_true_iff in H. destruct H as [Hb Hl].
  apply negb_true_iff in Hb.
  cbn [List.app until_newline]. rewrite Hb, (IH Hl). reflexivity.
Qed.



Lemma read_complete_line (l rest : list byte) :
  no_newline l = true ->
  read_joystick_data (Some (mkSerial (l ++ newline :: rest)))
  = mkPoll (try_block (l ++ [newline])) (Some (mkSerial rest))
      [OpInWaiting (List.length (l ++ newline :: rest));
       OpReadline (l ++ [newline]) false].
Proof.
  intros Hl. unfold read_joystick_data, readline, in_waiting. cbn [in_buffer].
  rewrite (until_newline_complete l rest Hl).
  destruct l; reflexivity.
Qed.






(** ** Lines the decoder drops *)




(** * The channel: one call *)




(** * The main loop on a stream of frames *)



(** * More about the state transition *)


Lemma float_mod_unique (a m r : Q) (k : Z) :
  0 < m -> 0 <= r -> r < m -> r == a - m * inject_Z k -> r == float_mod a m.
Proof.
  intros Hm Hr0 Hr1 Er.
  destruct (float_mod_range a m Hm) as [H0 H1].
  unfold float_mod in *.
  set (k' := Qfloor (a / m)) in *.
  assert (Ed : r - (a - m * inject_Z k') == m * inject_Z (k' - k)).
  { rewrite Er. unfold Z.sub. rewrite inject_Z_plus, inject_Z_opp. ring. }
  assert (Hlo : m * inject_Z (-1) < m * inject_Z (k' - k)).
  { rewrite <- Ed. change (inject_Z (-1)) with (-(1)). lra. }
  assert (Hhi : m * inject_Z (k' - k) < m * inject_Z 1).
  { rewrite <- Ed. change (inject_Z 1) with 1. lra. }
  apply Qmult_lt_l in Hlo; [|exact Hm]. apply Qmult_lt_l in Hhi; [|exact Hm].
  rewrite <- Zlt_Qlt in Hlo, Hhi.
  assert (E0 : (k' - k = 0)%Z) by lia.
  rewrite E0 in Ed. change (inject_Z 0) with 0 in Ed. lra.
Qed.


Lemma float_mod_small (a m : Q) : 0 <= a -> a < m -> float_mod a m == a.
Proof.
  intros H0 H1. symmetry.
  apply (float_mod_unique a m a 0); try assumption; [lra|].
  change (inject_Z 0) with 0. ring.
Qed.






Lemma normalize_frac (a : Z) : normalize a == (a - 512) # 512.
Proof.
  unfold normalize, Config.JOYSTICK_CENTER, Config.JOYSTICK_MAX.
  unfold Qeq, Qdiv, Qmult, Qinv, inject_Z. simpl. lia.
Qed.

Lemma deadzone_iff (a : Z) :
  Qlt_bool (Qabs (normalize a)) 0.1 = true <-> (461 <= a <= 563)%Z.
Proof.
  rewrite Qlt_bool_iff, Qabs_Qlt_condition, normalize_frac.
  unfold Qlt. simpl. lia.
Qed.




(** X4: at rest.  With both axes in the deadzone and the button released, a
    model on the ground whose yaw is in [0, 360) is left exactly where it
    is. *)
Theorem idle_sample_changes_nothing (s : ModelController) (x y : Z) :
  (461 <= x <= 563)%Z -> (461 <= y <= 563)%Z ->
  yaw_in_range s -> pos_y s == 0 ->
  let s' := update_from_joystick s (Some (x, y, false)) in
  pos_x s' == pos_x s /\ pos_y s' == pos_y s /\ pos_z s' = pos_z s
  /\ pitch s' = pitch s /\ yaw s' == yaw s /\ roll s' = roll s
  /\ velocity s' = velocity s.
Proof.
  intros Hx Hy [Hy0 Hy1] Hg s'. subst s'.
  destruct (update_untouched s x y false) as (Hz & Hp & Hr & Hv).
  apply deadzone_iff in Hx, Hy.
  split; [|split; [|split; [exact Hz|split; [exact Hp|split;
    [|split; [exact Hr | exact Hv]]]]]].
  - rewrite update_pos_x. unfold apply_deadzone. rewrite Hx. ring.
  - rewrite update_pos_y.
    assert (E : Qlt_bool 0 (pos_y s) = false) by (apply Qlt_bool_false_iff; lra).
    rewrite E. reflexivity.
  - rewrite update_yaw. unfold apply_deadzone. rewrite Hy.
    rewrite float_mod_small; lra.
Qed.

Lemma idle_sample_changes_nothing_witness :
  let s := facing init 90 in
  let s' := update_from_joystick s (Some (500, 530, false)%Z) in
  pos_x s' == pos_x s /\ pos_y s' == pos_y s /\ pos_z s' = pos_z s
  /\ pitch s' = pitch s /\ yaw s' == yaw s /\ roll s' = roll s
  /\ velocity s' = velocity s.
Proof.
  assert (Hx : (461 <= 500 <= 563)%Z) by lia.
  assert (Hy : (461 <= 530 <= 563)%Z) by lia.
  assert (Hr : yaw_in_range (facing init 90))
    by (split; vm_compute; [discriminate | reflexivity]).
  assert (Hg : pos_y (facing init 90) == 0) by reflexivity.
  exact (idle_sample_changes_nothing (facing init 90) 500 530 Hx Hy Hr Hg).
Defined.


(** * More about the decoder and the loop *)

Lemma until_newline_spec (bs : list byte) :
  forall line found rest,
    until_newline bs = (line, found, rest) ->
    bs = line ++ rest
    /\ no_newline (removelast line) = true
    /\ (found = true -> exists l, line = l ++ [newline])
    /\ (found = false -> rest = [] /\ no_newline line = true)
    /\ (bs <> [] -> line <> []).
Proof.
  induction bs as [|b bs IH]; intros line found rest E.
  - cbn in E. injection E as <- <- <-.
    split; [reflexivity|]. split; [reflexivity|]. split; [discriminate|].
    split; [intros _; split; reflexivity|].
    intros Habs. exfalso. apply Habs. reflexivity.
  - cbn [until_newline] in E. destruct (Byte.eqb b newline) eqn:Eb.
    + injection E as <- <- <-. apply Byte.byte_dec_bl in Eb. subst b.
      split; [reflexivity|]. split; [reflexivity|].
      split; [intros _; exists []; reflexivity|].
      split; discriminate.
    + destruct (until_newline bs) as [[l f] r] eqn:Eu.
      injection E as <- <- <-.
      destruct (IH _ _ _ eq_refl) as (Ebs & Hnl & Hf & Hnf & _).
      assert (Hb : negb (Byte.eqb b newline) = true) by now rewrite Eb.
      split; [cbn; now rewrite <- Ebs|].
      split; [|split; [|split; [|discriminate]]].
      * destruct l as [|b' l]; [reflexivity|].
        change (removelast (b :: b' :: l)) with (b :: removelast (b' :: l)).
        cbn [no_newline forallb]. rewrite Hb. exact Hnl.
      * intros Hfound. destruct (Hf Hfound) as (l0 & ->).
        exists (b :: l0). reflexivity.
      * intros Hfound. destruct (Hnf Hfound) as (-> & Hl).
        split; [reflexivity|]. cbn [no_newline forallb]. rewrite Hb. exact Hl.
Qed.

Lemma read_nonempty (s : Serial) :
  in_buffer s <> [] ->
  forall line found rest,
    until_newline (in_buffer s) = (line, found, rest) ->
    read_joystick_data (Some s)
    = mkPoll (try_block line) (Some (mkSerial rest))
        [OpInWaiting (in_waiting s); OpReadline line (negb found)].
Proof.
  intros Hne line found rest E.
  unfold read_joystick_data, readline. rewrite E.
  unfold in_waiting. destruct (in_buffer s); [contradiction | reflexivity].
Qed.

Lemma read_empty (s : Serial) :
  in_buffer s = [] ->
  read_joystick_data (Some s) = mkPoll (ret None) (Some s) [OpInWaiting 0].
Proof.
  intros E. unfold read_joystick_data, in_waiting. rewrite E. reflexivity.
Qed.

(** X5: no byte is lost, and none behind the first newline is touched.  The
    buffer before a call is the line the call read followed by the buffer
    after it; the line has no newline except as its last byte; bytes stay
    behind only after a complete line; with data present the decoder gets
    a non-empty line. *)
Theorem read_conserves_bytes (s : Serial) :
  exists line rest,
    port (read_joystick_data (Some s)) = Some (mkSerial rest)
    /\ in_buffer s = line ++ rest
    /\ no_newline (removelast line) = true
    /\ (rest <> [] -> exists l, line = l ++ [newline])
    /\ (in_buffer s <> [] ->
        line <> [] /\ outcome (read_joystick_data (Some s)) = try_block line).
Proof.
  destruct (in_buffer s) as [|b bs] eqn:Ebuf.
  - exists [], []. rewrite (read_empty s Ebuf). destruct s as [buf].
    cbn in Ebuf. subst buf.
    split; [reflexivity|]. split; [reflexivity|]. split; [reflexivity|].
    split; intros Habs; exfalso; apply Habs; reflexivity.
  - destruct (until_newline (in_buffer s)) as [[line found] rest] eqn:Eu.
    assert (Hne : in_buffer s <> []) by (rewrite Ebuf; discriminate).
    rewrite (read_nonempty s Hne _ _ _ Eu).
    destruct (until_newline_spec _ _ _ _ Eu) as (Ebs & Hnl & Hf & Hnf & Hline).
    exists line, rest. rewrite <- Ebuf.
    split; [reflexivity|]. split; [exact Ebs|]. split; [exact Hnl|]. split.
    + intros Hrest. destruct found; [now apply Hf|].
      destruct (Hnf eq_refl) as [-> _]. now destruct Hrest.
    + intros _. split; [now apply Hline | reflexivity].
Qed.

Lemma read_outcome_cases (ser : option Serial) :
  outcome (read_joystick_data ser) = ret None
  \/ exists raw, outcome (read_joystick_data ser) = try_block raw.
Proof.
  destruct ser as [s|]; [|left; reflexivity].
  destruct (in_buffer s) as [|b bs] eqn:Ebuf.
  - left. now rewrite (read_empty s Ebuf).
  - right. destruct (until_newline (in_buffer s)) as [[line found] rest] eqn:Eu.
    assert (Hne : in_buffer s <> []) by (rewrite Ebuf; discriminate).
    exists line. now rewrite (read_nonempty s Hne _ _ _ Eu).
Qed.

Lemma read_sample_in_range (ser : option Serial) (x y : Z) (p : bool) :
  outcome (read_joystick_data ser) = ret (Some (x, y, p)) ->
  (0 <= x <= 1023)%Z /\ (0 <= y <= 1023)%Z.
Proof.
  intros E. destruct (read_outcome_cases ser) as [E' | (raw & E')];
    rewrite E' in E; [discriminate E|].
  apply try_block_some in E.
  destruct E as (_ & _ & _ & _ & _ & _ & _ & _ & _ & _ & Er & _).
  cbn [fst snd] in Er. unfold in_adc_range in Er.
  rewrite !andb_true_iff, !Z.leb_le in Er. lia.
Qed.

(** X6: whatever is in the port, a sample that [read_joystick_data] returns
    has both axes in [0, 1023]. *)
Theorem returned_sample_in_range (ser : option Serial) (x y : Z) (p : bool) :
  outcome (read_joystick_data ser) = ret (Some (x, y, p)) ->
  (0 <= x <= 1023)%Z /\ (0 <= y <= 1023)%Z.
Proof. exact (read_sample_in_range ser x y p). Qed.

Lemma returned_sample_in_range_witness :
  (0 <= 1023 <= 1023)%Z /\ (0 <= 7 <= 1023)%Z.
Proof.
  assert (E : outcome (read_joystick_data
                         (Some (mkSerial (stream [bytes "1023,7,0"]))))
              = ret (Some (1023, 7, true)%Z)) by (vm_compute; reflexivity).
  exact (returned_sample_in_range _ _ _ _ E).
Defined.

(** X7: a line of blanks and line ends only (an empty line included) is
    dropped. *)
Theorem blank_line_is_dropped (raw : list byte) :
  forallb blank_byte raw = true -> try_block raw = ret None.
Proof.
  intros H. destruct (map_blank_tail raw H) as [Hsp Hascii].
  unfold try_block, decode_line.
  rewrite (utf8_decode_ascii _ Hascii). cbn [or_raise ret bind].
  rewrite <- (app_nil_l (map Byte.to_N raw)).
  rewrite (strip_plain [] _ (Forall_nil _) Hsp). reflexivity.
Qed.

Lemma blank_line_is_dropped_witness :
  try_block (bytes " " ++ [x0d; newline]) = ret None.
Proof.
  assert (H : forallb blank_byte (bytes " " ++ [x0d; newline]) = true)
    by reflexivity.
  exact (blank_line_is_dropped _ H).
Defined.


Lemma read_conserves_bytes_witness :
  exists line rest,
    port (read_joystick_data (Some (mkSerial (bytes "1,2,0" ++ newline :: bytes "3,4"))))
    = Some (mkSerial rest)
    /\ in_buffer (mkSerial (bytes "1,2,0" ++ newline :: bytes "3,4")) = line ++ rest
    /\ no_newline (removelast line) = true
    /\ (rest <> [] -> exists l, line = l ++ [newline])
    /\ (in_buffer (mkSerial (bytes "1,2,0" ++ newline :: bytes "3,4")) <> [] ->
        line <> []
        /\ outcome (read_joystick_data
                      (Some (mkSerial (bytes "1,2,0" ++ newline :: bytes "3,4"))))
           = try_block line).
Proof.
  exact (read_conserves_bytes (mkSerial (bytes "1,2,0" ++ newline :: bytes "3,4"))).
Defined.

Lemma ticks_succ (n : nat) (st : option Serial * ModelController) :
  ticks (S n) st = ticks n (tick st).
Proof. unfold ticks. apply Nat.iter_succ_r. Qed.

Lemma no_serial_idle (n : nat) (c : ModelController) :
  ticks n (None, c) = (None, c).
Proof.
  induction n as [|n IH]; [reflexivity|].
  rewrite ticks_succ. exact IH.
Qed.

(** X8: without a serial connection the loop never changes the controller,
    however many iterations it makes. *)
Theorem no_serial_no_motion (n : nat) (c : ModelController) :
  ticks n (None, c) = (None, c).
Proof. exact (no_serial_idle n c). Qed.

Lemma stream_cons (l : list byte) (ls : list (list byte)) (rest : list byte) :
  stream (l :: ls) ++ rest = l ++ newline :: (stream ls ++ rest).
Proof.
  unfold stream. cbn [map List.concat].
  rewrite <- !app_assoc. reflexivity.
Qed.

Lemma tick_complete_line (l rest : list byte) (c : ModelController) :
  no_newline l = true ->
  tick (Some (mkSerial (l ++ newline :: rest)), c)
  = (Some (mkSerial rest), update_from_joystick c (decoded l)).
Proof.
  intros Hl. unfold tick. rewrite (read_complete_line l rest Hl).
  cbn [outcome port]. unfold decoded.
  destruct (try_block_returns (l ++ [newline])) as (v & ->). reflexivity.
Qed.

(** X9: a backlog is drained one line per iteration, in order.  With the
    lines [ls] buffered, each ended by a newline, and [rest] behind them,
    [length ls] iterations leave [rest] in the port and bring the controller
    where the decoded samples of the lines, applied in order, bring it. *)
Theorem backlog_drained_in_order (ls : list (list byte)) (rest : list byte)
    (c : ModelController) :
  forallb no_newline ls = true ->
  ticks (List.length ls) (Some (mkSerial (stream ls ++ rest)), c)
  = (Some (mkSerial rest), run_from c (map decoded ls)).
Proof.
  revert c. induction ls as [|l ls IH]; intros c H; [reflexivity|].
  cbn [forallb] in H. apply andb_true_iff in H. destruct H as [Hl Hls].
  cbn [List.length]. rewrite ticks_succ, stream_cons.
  rewrite (tick_complete_line l _ c Hl), (IH _ Hls). reflexivity.
Qed.

Lemma backlog_drained_in_order_witness :
  ticks 2 (Some (mkSerial (stream [bytes "700,512,0"; bytes "junk"]
                           ++ bytes "512,5")), init)
  = (Some (mkSerial (bytes "512,5")),
     run_from init (map decoded [bytes "700,512,0"; bytes "junk"])).
Proof.
  assert (H : forallb no_newline [bytes "700,512,0"; bytes "junk"] = true)
    by reflexivity.
  exact (backlog_drained_in_order [bytes "700,512,0"; bytes "junk"]
           (bytes "512,5") init H).
Defined.




(** ** Blanks around a line *)

Lemma ascii_not_in_range (lo hi a : N) :
  (a <? 0x80)%N = true -> (0x80 <= lo)%N -> in_range lo hi a = false.
Proof.
  intros Ha Hlo. apply N.ltb_lt in Ha. unfold in_range.
  apply andb_false_iff. left. apply N.leb_gt. lia.
Qed.

Lemma ascii_not_continuation (a : N) :
  (a <? 0x80)%N = true -> continuation a = false.
Proof. intros Ha. apply ascii_not_in_range; [exact Ha | lia]. Qed.

Lemma utf8_decode_ascii_app (A bs : list N) :
  Forall (fun c => (c <? 0x80)%N = true) A ->
  utf8_decode (A ++ bs) = option_map (fun t => A ++ t) (utf8_decode bs).
Proof.
  induction 1 as [|a A Ha _ IH]; cbn [List.app].
  - destruct (utf8_decode bs); reflexivity.
  - cbn [utf8_decode]. rewrite Ha, IH. destruct (utf8_decode bs); reflexivity.
Qed.

Lemma option_map_cons_app (c : N) (A : list N) (o : option text) :
  option_map (cons c) (option_map (fun t => t ++ A) o)
  = option_map (fun t => t ++ A) (option_map (cons c) o).
Proof. destruct o; reflexivity. Qed.

Ltac ascii_tail :=
  repeat match goal with
         | H : Forall _ (_ :: _) |- _ => inversion H; subst; clear H
         end;
  repeat match goal with
         | H : (?a <? 0x80)%N = true |- _ =>
             first [ rewrite (ascii_not_continuation a H)
                   | rewrite (ascii_not_in_range _ _ a H)
                       by (repeat match goal with
                                  | |- context [if ?b then _ else _] => destruct b
                                  end; lia) ];
             rewrite ?andb_false_r; cbn [andb]
         end;
  try reflexivity.

Lemma utf8_decode_app_ascii (A : list N) :
  Forall (fun c => (c <? 0x80)%N = true) A ->
  forall (n : nat) (bs : list N),
    (List.length bs <= n)%nat ->
    utf8_decode (bs ++ A) = option_map (fun t => t ++ A) (utf8_decode bs).
Proof.
  intros HA. induction n as [|n IH]; intros bs Hlen.
  - destruct bs; [|cbn in Hlen; lia]. cbn [List.app utf8_decode option_map].
    apply utf8_decode_ascii, HA.
  - destruct bs as [|b0 r0].
    { cbn [List.app utf8_decode option_map]. apply utf8_decode_ascii, HA. }
    cbn [List.length] in Hlen. cbn [List.app utf8_decode].
    destruct (b0 <? 0x80)%N.
    { rewrite IH by lia. apply option_map_cons_app. }
    destruct (in_range 0xC2 0xDF b0).
    { destruct r0 as [|b1 r1]; cbn [List.app].
      - destruct A as [|a A']; [reflexivity|]. ascii_tail.
      - cbn [List.length] in Hlen. destruct (continuation b1); [|reflexivity].
        rewrite IH by lia. apply option_map_cons_app. }
    destruct (in_range 0xE0 0xEF b0).
    { destruct r0 as [|b1 [|b2 r2]]; cbn [List.app].
      - destruct A as [|a1 [|a2 A']]; try reflexivity. ascii_tail.
      - destruct A as [|a A']; [reflexivity|]. ascii_tail.
      - cbn [List.length] in Hlen.
        match goal with
        | |- (if ?t then _ else _) = _ => destruct t; [|reflexivity]
        end.
        rewrite IH by lia. apply option_map_cons_app. }
    destruct (in_range 0xF0 0xF4 b0); [|reflexivity].
    destruct r0 as [|b1 [|b2 [|b3 r3]]]; cbn [List.app].
    + destruct A as [|a1 [|a2 [|a3 A']]]; try reflexivity. ascii_tail.
    + destruct A as [|a1 [|a2 A']]; try reflexivity. ascii_tail.
    + destruct A as [|a A']; [reflexivity|]. ascii_tail.
    + cbn [List.length] in Hlen.
      match goal with
      | |- (if ?t then _ else _) = _ => destruct t; [|reflexivity]
      end.
      rewrite IH by lia. apply option_map_cons_app.
Qed.

Lemma lstrip_all (sp : N -> bool) (ws : text) :
  Forall (fun c => sp c = true) ws -> lstrip sp ws = [].
Proof.
  intros H. rewrite <- (app_nil_r ws). now rewrite lstrip_spaces.
Qed.

Lemma lstrip_app_spaces (sp : N -> bool) (t ws : text) :
  Forall (fun c => sp c = true) ws ->
  lstrip sp (t ++ ws)
  = match lstrip sp t with
    | [] => []
    | c :: u => (c :: u) ++ ws
    end.
Proof.
  intros Hws. induction t as [|c t IH].
  - cbn [List.app lstrip]. apply lstrip_all, Hws.
  - cbn [List.app lstrip]. destruct (sp c); [exact IH | reflexivity].
Qed.

Lemma strip_blanks_around (t w1 w2 : text) :
  Forall (fun c => strip_space c = true) w1 ->
  Forall (fun c => strip_space c = true) w2 ->
  strip (w1 ++ t ++ w2) = strip t.
Proof.
  intros H1 H2. unfold strip.
  rewrite (lstrip_spaces _ _ _ H1), (lstrip_app_spaces _ _ _ H2).
  destruct (lstrip strip_space t) as [|c u]; [reflexivity|].
  rewrite rev_app_distr, lstrip_spaces by (apply Forall_rev; exact H2).
  reflexivity.
Qed.

(** X11: blanks and line ends of ASCII before and after a line never change
    what it decodes to, whether the line is a frame or not. *)
Theorem blanks_around_line_ignored (lead raw tail : list byte) :
  forallb blank_byte lead = true ->
  forallb blank_byte tail = true ->
  try_block (lead ++ raw ++ tail) = try_block raw.
Proof.
  intros Hl Ht.
  destruct (map_blank_tail lead Hl) as [Sl Al].
  destruct (map_blank_tail tail Ht) as [St At].
  unfold try_block, decode_line.
  rewrite !map_app, (utf8_decode_ascii_app _ _ Al).
  rewrite (utf8_decode_app_ascii _ At _ _ (Nat.le_refl _)).
  destruct (utf8_decode (map Byte.to_N raw)) as [t|]; [|reflexivity].
  cbn [option_map or_raise ret bind].
  rewrite (strip_blanks_around t _ _ Sl St). reflexivity.
Qed.

Lemma blanks_around_line_ignored_witness :
  try_block (bytes " " ++ bytes "12,x,0" ++ [x0d; newline])
  = try_block (bytes "12,x,0").
Proof.
  assert (H1 : forallb blank_byte (bytes " ") = true) by reflexivity.
  assert (H2 : forallb blank_byte [x0d; newline] = true) by reflexivity.
  exact (blanks_around_line_ignored (bytes " ") (bytes "12,x,0") [x0d; newline]
           H1 H2).
Defined.

(** * Rendering *)

Lemma gl_run_app (st : bool * nat) (a b : list draw_op) :
  gl_run st (a ++ b)
  = match gl_run st a with
    | Some st' => gl_run st' b
    | None => None
    end.
Proof.
  revert st. induction a as [|op a IH]; intros st; [reflexivity|].
  cbn [List.app gl_run]. destruct (gl_step st op); [apply IH | reflexivity].
Qed.

Lemma vertices_sent_app (a b : list draw_op) :
  vertices_sent (a ++ b) = vertices_sent a ++ vertices_sent b.
Proof.
  induction a as [|op a IH]; [reflexivity|].
  cbn [List.app vertices_sent]. destruct (is_vertex op); cbn [List.app];
    now rewrite IH.
Qed.

Lemma and_then_ok (a b : drawing) :
  snd a = None -> and_then a b = (fst a ++ fst b, snd b).
Proof. intros H. unfold and_then. now rewrite H. Qed.

Lemma and_then_fail (a b : drawing) (e : raised) :
  snd a = Some e -> and_then a b = a.
Proof. intros H. unfold and_then. now rewrite H. Qed.

Lemma gl_run_vertex_data (ops : list draw_op) (d : nat) :
  Forall vertex_data ops -> gl_run (true, d) ops = Some (true, d).
Proof.
  induction 1 as [|op ops Hop _ IH]; [reflexivity|].
  cbn [gl_run]. destruct op; try contradiction; cbn [gl_step]; exact IH.
Qed.

Section RenderMesh.

Variable mesh : Mesh.

(** The loop over the indices, from a position [pre ++ suf] in the array of
    vertices on. *)
Lemma vertex_loop (suf pre : list vec3) :
  vertices mesh = pre ++ suf ->
  let r := for_each (render_vertex mesh)
             (seq (List.length pre) (List.length suf)) in
  Forall vertex_data (fst r)
  /\ (has_normals mesh = false
      \/ (List.length (vertices mesh) <= List.length (normals mesh))%nat ->
      snd r = None /\ vertices_sent (fst r) = suf)
  /\ (has_normals mesh = true ->
      (List.length pre <= List.length (normals mesh)
       < List.length (vertices mesh))%nat ->
      snd r = Some IndexError).
Proof.
  revert pre. induction suf as [|v suf IH]; intros pre E r; subst r.
  - cbn. split; [constructor|]. split; [intros _; split; reflexivity|].
    intros _ H. rewrite E, length_app in H. cbn in H. lia.
  - cbn [List.length seq for_each].
    assert (Ev : nth_error (vertices mesh) (List.length pre) = Some v).
    { rewrite E, nth_error_app2, Nat.sub_diag by lia. reflexivity. }
    assert (E' : vertices mesh = (pre ++ [v]) ++ suf)
      by (rewrite <- app_assoc; exact E).
    specialize (IH (pre ++ [v]) E').
    rewrite length_app in IH. cbn [List.length] in IH.
    rewrite Nat.add_1_r in IH. cbn zeta in IH.
    destruct IH as (IHdata & IHok & IHbad).
    set (rest := for_each (render_vertex mesh)
                   (seq (S (List.length pre)) (List.length suf))) in *.
    unfold render_vertex, index_then. rewrite Ev.
    destruct (has_normals mesh) eqn:Hn.
    + destruct (nth_error (normals mesh) (List.length pre)) as [n|] eqn:En.
      * assert (Hlt : (List.length pre < List.length (normals mesh))%nat)
          by (apply nth_error_Some; rewrite En; discriminate).
        cbn [emit and_then fst snd List.app].
        split; [repeat constructor; exact IHdata|]. split.
        -- intros H. destruct (IHok H) as [Es Es'].
           split; [exact Es|].
           cbn [vertices_sent is_vertex]. now rewrite Es'.
        -- intros _ H. apply IHbad; [reflexivity | lia].
      * apply nth_error_None in En.
        cbn [emit fail and_then fst snd].
        split; [constructor|]. split.
        -- intros [H | H]; [discriminate H|].
           rewrite E, length_app in H. cbn in H. lia.
        -- intros _ _. reflexivity.
    + cbn [emit and_then fst snd List.app].
      split; [repeat constructor; exact IHdata|]. split.
      * intros H. destruct (IHok H) as [Es Es'].
        split; [exact Es|].
        cbn [vertices_sent is_vertex]. now rewrite Es'.
      * discriminate.
Qed.

Lemma has_normals_iff :
  has_normals mesh = false <-> List.length (normals mesh) = 0%nat.
Proof.
  unfold has_normals. rewrite Nat.ltb_ge. lia.
Qed.

Lemma render_mesh_drawable :
  drawable mesh = true ->
  exists ops,
    render_mesh mesh = (ops, None)
    /\ (forall d, gl_run (false, d) ops = Some (false, d))
    /\ vertices_sent ops = vertices mesh.
Proof.
  intros Hd. unfold drawable in Hd.
  rewrite orb_true_iff, Nat.eqb_eq, Nat.leb_le in Hd.
  destruct (vertex_loop (vertices mesh) [] eq_refl) as (Hdata & Hok & _).
  cbn [List.length] in Hdata, Hok.
  destruct Hok as [Es Ev];
    [destruct Hd as [Hd | Hd]; [left; apply has_normals_iff, Hd | right; exact Hd]|].
  unfold render_mesh.
  set (loop := for_each (render_vertex mesh)
                 (seq 0 (List.length (vertices mesh)))) in *.
  eexists. split; [|split].
  - rewrite and_then_ok by reflexivity.
    rewrite (and_then_ok (emit [glBegin_TRIANGLES])) by reflexivity.
    rewrite (and_then_ok loop) by exact Es.
    cbn [emit fst snd]. reflexivity.
  - intros d. cbn [List.app].
    rewrite gl_run_app.
    assert (E1 : gl_run (false, d)
                   (if has_normals mesh then [glEnable_NORMALIZE] else [])
                 = Some (false, d)) by (destruct (has_normals mesh); reflexivity).
    rewrite E1. cbn [gl_run gl_step].
    rewrite gl_run_app, (gl_run_vertex_data _ d Hdata). reflexivity.
  - rewrite !vertices_sent_app, Ev.
    destruct (has_normals mesh); cbn; now rewrite app_nil_r.
Qed.

Lemma render_mesh_not_drawable :
  drawable mesh = false ->
  exists ops,
    render_mesh mesh = (ops, Some IndexError)
    /\ (forall d, gl_run (false, d) ops = Some (true, d)).
Proof.
  intros Hd. unfold drawable in Hd.
  rewrite orb_false_iff, Nat.eqb_neq, Nat.leb_gt in Hd. destruct Hd as [Hn Hlt].
  assert (Hhas : has_normals mesh = true).
  { destruct (has_normals mesh) eqn:E; [reflexivity|].
    apply has_normals_iff in E. contradiction. }
  destruct (vertex_loop (vertices mesh) [] eq_refl) as (Hdata & _ & Hbad).
  cbn [List.length] in Hdata, Hbad.
  specialize (Hbad Hhas (conj (Nat.le_0_l _) Hlt)).
  unfold render_mesh.
  set (loop := for_each (render_vertex mesh)
                 (seq 0 (List.length (vertices mesh)))) in *.
  rewrite Hhas. eexists. split.
  - rewrite and_then_ok by reflexivity.
    rewrite (and_then_ok (emit [glBegin_TRIANGLES])) by reflexivity.
    rewrite (and_then_fail loop _ _ Hbad).
    cbn [emit fst snd List.app]. rewrite Hbad. reflexivity.
  - intros d. cbn [gl_run gl_step]. apply gl_run_vertex_data, Hdata.
Qed.

End RenderMesh.

Lemma render_model_drawable (ms : list Mesh) :
  forallb drawable ms = true ->
  exists ops,
    for_each render_mesh ms = (ops, None)
    /\ (forall d, gl_run (false, d) ops = Some (false, d))
    /\ vertices_sent ops = List.concat (map vertices ms).
Proof.
  induction ms as [|m ms IH]; intros H.
  - exists []. repeat split.
  - cbn [forallb] in H. apply andb_true_iff in H. destruct H as [Hm Hms].
    destruct (render_mesh_drawable m Hm) as (ops1 & E1 & G1 & V1).
    destruct (IH Hms) as (ops2 & E2 & G2 & V2).
    exists (ops1 ++ ops2). cbn [for_each]. rewrite E1, E2.
    split; [reflexivity|]. split.
    + intros d. rewrite gl_run_app, G1. apply G2.
    + rewrite vertices_sent_app, V1, V2. reflexivity.
Qed.

Lemma render_model_not_drawable (ms : list Mesh) :
  forallb drawable ms = false ->
  exists ops,
    for_each render_mesh ms = (ops, Some IndexError)
    /\ (forall d, gl_run (false, d) ops = Some (true, d)).
Proof.
  induction ms as [|m ms IH]; intros H; [discriminate H|].
  cbn [forallb] in H. cbn [for_each].
  destruct (drawable m) eqn:Hm.
  - cbn [andb] in H.
    destruct (render_mesh_drawable m Hm) as (ops1 & E1 & G1 & _).
    destruct (IH H) as (ops2 & E2 & G2).
    exists (ops1 ++ ops2). rewrite E1, E2. split; [reflexivity|].
    intros d. rewrite gl_run_app, G1. apply G2.
  - destruct (render_mesh_not_drawable m Hm) as (ops1 & E1 & G1).
    exists ops1. rewrite E1. split; [reflexivity | exact G1].
Qed.

(** X12: [render_model] finishes exactly when every mesh is drawable (it
    has no normals, or at least as many normals as vertices); otherwise the
    exception is an [IndexError]. *)
Theorem render_model_finishes_iff (scene : Scene) :
  (snd (render_model scene) = None <-> forallb drawable (meshes scene) = true)
  /\ (forall e, snd (render_model scene) = Some e -> e = IndexError).
Proof.
  unfold render_model.
  destruct (forallb drawable (meshes scene)) eqn:H.
  - destruct (render_model_drawable _ H) as (ops & -> & _).
    split; [split; reflexivity | discriminate].
  - destruct (render_model_not_drawable _ H) as (ops & -> & _). cbn [snd].
    split; [split; discriminate|]. intros e E. now injection E as <-.
Qed.

(** X13: when [render_model] finishes, its calls are legal for OpenGL and
    every [glBegin] is closed ([gl_run] ends outside, at the same matrix
    depth), and the vertices it sends are those of the meshes, mesh after
    mesh, each in the order of its array. *)
Theorem render_model_well_formed (scene : Scene) :
  snd (render_model scene) = None ->
  (forall d, gl_run (false, d) (fst (render_model scene)) = Some (false, d))
  /\ vertices_sent (fst (render_model scene))
     = List.concat (map vertices (meshes scene)).
Proof.
  unfold render_model. intros Hok.
  destruct (forallb drawable (meshes scene)) eqn:H.
  - destruct (render_model_drawable _ H) as (ops & -> & G & V). now split.
  - destruct (render_model_not_drawable _ H) as (ops & E & _).
    rewrite E in Hok. discriminate Hok.
Qed.

(** X14: when an [IndexError] stops [render_model], the calls made so far
    are legal but stop inside an open [glBegin]: no [glEnd] follows it. *)
Theorem render_model_failure_leaves_begin_open (scene : Scene) (e : raised) :
  snd (render_model scene) = Some e ->
  forall d, gl_run (false, d) (fst (render_model scene)) = Some (true, d).
Proof.
  unfold render_model. intros Hbad.
  destruct (forallb drawable (meshes scene)) eqn:H.
  - destruct (render_model_drawable _ H) as (ops & E & _).
    rewrite E in Hbad. discriminate Hbad.
  - destruct (render_model_not_drawable _ H) as (ops & -> & G). exact G.
Qed.

Lemma render_model_finishes_iff_witness :
  snd (render_model
         (mkScene [mkMesh [Vec3 0 0 0; Vec3 1 0 0; Vec3 0 1 0] [];
                   mkMesh [Vec3 0 0 0; Vec3 1 0 0] [Vec3 0 0 1; Vec3 0 0 1]]))
  = None
  /\ snd (render_model
            (mkScene [mkMesh [Vec3 0 0 0; Vec3 1 0 0; Vec3 0 1 0] [Vec3 0 0 1]]))
     = Some IndexError.
Proof.
  split.
  - apply (proj1 (render_model_finishes_iff _)). reflexivity.
  - destruct (snd (render_model
                     (mkScene [mkMesh [Vec3 0 0 0; Vec3 1 0 0; Vec3 0 1 0]
                                 [Vec3 0 0 1]]))) as [e|] eqn:E.
    + f_equal. exact (proj2 (render_model_finishes_iff _) e E).
    + apply (proj1 (render_model_finishes_iff _)) in E. discriminate E.
Defined.

Lemma render_model_well_formed_witness :
  (forall d,
      gl_run (false, d)
        (fst (render_model
                (mkScene [mkMesh [Vec3 0 0 0; Vec3 1 0 0] [Vec3 0 0 1; Vec3 0 0 1];
                          mkMesh [Vec3 5 5 5] []])))
      = Some (false, d))
  /\ vertices_sent
       (fst (render_model
               (mkScene [mkMesh [Vec3 0 0 0; Vec3 1 0 0] [Vec3 0 0 1; Vec3 0 0 1];
                         mkMesh [Vec3 5 5 5] []])))
     = List.concat
         (map vertices
            [mkMesh [Vec3 0 0 0; Vec3 1 0 0] [Vec3 0 0 1; Vec3 0 0 1];
             mkMesh [Vec3 5 5 5] []]).
Proof.
  assert (H : snd (render_model
                     (mkScene [mkMesh [Vec3 0 0 0; Vec3 1 0 0]
                                 [Vec3 0 0 1; Vec3 0 0 1];
                               mkMesh [Vec3 5 5 5] []])) = None) by reflexivity.
  exact (render_model_well_formed _ H).
Defined.

Lemma render_model_failure_leaves_begin_open_witness :
  gl_run (false, 1%nat)
    (fst (render_model
            (mkScene [mkMesh [Vec3 0 0 0; Vec3 1 0 0; Vec3 0 1 0] [Vec3 0 0 1]])))
  = Some (true, 1%nat).
Proof.
  assert (H : snd (render_model
                     (mkScene [mkMesh [Vec3 0 0 0; Vec3 1 0 0; Vec3 0 1 0]
                                 [Vec3 0 0 1]])) = Some IndexError) by reflexivity.
  exact (render_model_failure_leaves_begin_open _ _ H 1%nat).
Defined.

Lemma and_then_forall (P : draw_op -> Prop) (a b : drawing) :
  Forall P (fst a) -> Forall P (fst b) -> Forall P (fst (and_then a b)).
Proof.
  intros Ha Hb. unfold and_then. destruct (snd a); [exact Ha|].
  cbn [fst]. apply Forall_app. now split.
Qed.

Lemma for_each_forall {A : Type} (P : draw_op -> Prop) (body : A -> drawing)
    (l : list A) :
  (forall a, Forall P (fst (body a))) -> Forall P (fst (for_each body l)).
Proof.
  intros H. induction l as [|a l IH]; [constructor|].
  cbn [for_each]. apply and_then_forall; [apply H | exact IH].
Qed.

Lemma render_model_ops (scene : Scene) :
  Forall render_op (fst (render_model scene)).
Proof.
  unfold render_model. apply for_each_forall. intros mesh.
  unfold render_mesh.
  apply and_then_forall; [destruct (has_normals mesh); repeat constructor|].
  apply and_then_forall; [repeat constructor|].
  apply and_then_forall; [|repeat constructor].
  apply for_each_forall. intros i. unfold render_vertex, index_then.
  apply and_then_forall.
  - destruct (has_normals mesh); [|constructor].
    destruct (nth_error (normals mesh) i); repeat constructor.
  - destruct (nth_error (vertices mesh) i); repeat constructor.
Qed.

Lemma flips_app (a b : list draw_op) : flips (a ++ b) = (flips a + flips b)%nat.
Proof. unfold flips. now rewrite filter_app, length_app. Qed.

Lemma flips_render_ops (ops : list draw_op) : Forall render_op ops -> flips ops = 0%nat.
Proof.
  induction 1 as [|op ops Hop _ IH]; [reflexivity|].
  destruct op; try contradiction; exact IH.
Qed.

Lemma render_frame_drawable (c : ModelController) (scene : Scene) :
  forallb drawable (meshes scene) = true ->
  snd (render_frame c scene) = None
  /\ (forall d, gl_run (false, d) (fst (render_frame c scene)) = Some (false, d))
  /\ flips (fst (render_frame c scene)) = 1%nat.
Proof.
  intros H. pose proof (render_model_ops scene) as Hops.
  unfold render_model in *.
  destruct (render_model_drawable _ H) as (ops & E & G & _).
  unfold render_frame, render_model. rewrite E in *. cbn [fst] in Hops.
  cbn [emit and_then fst snd List.app].
  split; [reflexivity|]. split.
  - intros d. unfold apply_transformations. cbn [List.app gl_run gl_step].
    rewrite gl_run_app, G. reflexivity.
  - change (flips ([glClear; glPushMatrix] ++ apply_transformations c ++ ops
                   ++ [glPopMatrix; display_flip; clock_tick Config.TARGET_FPS])
            = 1%nat).
    rewrite !flips_app, (flips_render_ops ops Hops). reflexivity.
Qed.

Lemma render_frame_not_drawable (c : ModelController) (scene : Scene) :
  forallb drawable (meshes scene) = false ->
  snd (render_frame c scene) = Some IndexError
  /\ (forall d, gl_run (false, d) (fst (render_frame c scene)) = Some (true, S d))
  /\ flips (fst (render_frame c scene)) = 0%nat.
Proof.
  intros H. pose proof (render_model_ops scene) as Hops.
  unfold render_model in *.
  destruct (render_model_not_drawable _ H) as (ops & E & G).
  unfold render_frame, render_model. rewrite E in *. cbn [fst] in Hops.
  cbn [emit and_then fst snd List.app].
  split; [reflexivity|]. split.
  - intros d. unfold apply_transformations. cbn [List.app gl_run gl_step].
    apply G.
  - change (flips ([glClear; glPushMatrix] ++ apply_transformations c ++ ops)
            = 0%nat).
    rewrite !flips_app, (flips_render_ops ops Hops). reflexivity.
Qed.

(** X15: one frame.  With a drawable scene the calls of a frame are legal
    for OpenGL and leave the matrix stack as they found it (the
    transformations of the model are pushed and popped), and the display is
    flipped once.  With a scene that is not drawable the frame raises
    [IndexError] inside [glBegin], the pushed matrix is never popped and the
    display is not flipped. *)
Theorem frame_matrix_stack (c : ModelController) (scene : Scene) :
  (forallb drawable (meshes scene) = true ->
   snd (render_frame c scene) = None
   /\ (forall d, gl_run (false, d) (fst (render_frame c scene)) = Some (false, d))
   /\ flips (fst (render_frame c scene)) = 1%nat)
  /\ (forallb drawable (meshes scene) = false ->
      snd (render_frame c scene) = Some IndexError
      /\ (forall d,
             gl_run (false, d) (fst (render_frame c scene)) = Some (true, S d))
      /\ flips (fst (render_frame c scene)) = 0%nat).
Proof.
  split; [apply render_frame_drawable | apply render_frame_not_drawable].
Qed.

Lemma frame_matrix_stack_witness :
  snd (render_frame init (mkScene [mkMesh [Vec3 0 0 0; Vec3 1 0 0; Vec3 0 1 0] []]))
  = None
  /\ (forall d,
         gl_run (false, d)
           (fst (render_frame init
                   (mkScene [mkMesh [Vec3 0 0 0; Vec3 1 0 0; Vec3 0 1 0] []])))
         = Some (false, d))
  /\ flips (fst (render_frame init
                   (mkScene [mkMesh [Vec3 0 0 0; Vec3 1 0 0; Vec3 0 1 0] []])))
     = 1%nat.
Proof.
  assert (H : forallb drawable
                (meshes (mkScene [mkMesh [Vec3 0 0 0; Vec3 1 0 0; Vec3 0 1 0] []]))
              = true) by reflexivity.
  exact (proj1 (frame_matrix_stack init _) H).
Defined.

(** * Start-up and the end of the process *)

Lemma length_concat_vertices (ms : list Mesh) :
  List.length (List.concat (map vertices ms))
  = list_sum (map (fun mesh => List.length (vertices mesh)) ms).
Proof.
  induction ms as [|m ms IH]; [reflexivity|].
  cbn [map List.concat list_sum]. now rewrite length_app, IH.
Qed.

Lemma load_3d_model_cases (fe : bool) (ld : option Scene) :
  (exists scene,
      fe = true /\ ld = Some scene /\ meshes scene <> []
      /\ load_3d_model fe ld
         = ([MsgLoadingModel;
             MsgModelLoaded (List.length (meshes scene)) (vertex_count scene)],
            inr scene))
  \/ ((fe = false \/ ld = None \/ exists scene, ld = Some scene /\ meshes scene = [])
      /\ snd (load_3d_model fe ld) = inl (SystemExit 1)).
Proof.
  unfold load_3d_model. destruct fe; cbn [negb].
  - destruct ld as [scene|].
    + destruct (meshes scene) as [|m ms] eqn:E.
      * right. split; [|reflexivity]. right. right. exists scene. now split.
      * left. exists scene. rewrite E.
        repeat split; try reflexivity. discriminate.
    + right. split; [|reflexivity]. right. left. reflexivity.
  - right. split; [|reflexivity]. left. reflexivity.
Qed.

(** X16: [load_3d_model] returns a scene exactly when the file exists, the
    library loads it and it has at least one mesh; in every other case it
    leaves with [SystemExit(1)], also when the library raises.  The vertex
    count it prints on success is the number of vertices every finished
    [render_model] sends. *)
Theorem load_3d_model_result (fe : bool) (ld : option Scene) :
  (forall scene,
      snd (load_3d_model fe ld) = inr scene
      <-> fe = true /\ ld = Some scene /\ meshes scene <> [])
  /\ (forall e, snd (load_3d_model fe ld) = inl e -> e = SystemExit 1)
  /\ (forall scene,
         snd (load_3d_model fe ld) = inr scene ->
         snd (render_model scene) = None ->
         fst (load_3d_model fe ld)
         = [MsgLoadingModel;
            MsgModelLoaded (List.length (meshes scene))
              (List.length (vertices_sent (fst (render_model scene))))]).
Proof.
  destruct (load_3d_model_cases fe ld)
    as [(scene0 & Hfe & Hld & Hne & E) | (Hbad & E)].
  - rewrite E. cbn [fst snd]. split; [|split].
    + intros scene. split.
      * intros H. injection H as <-. now repeat split.
      * intros (_ & Hld' & _). congruence.
    + discriminate.
    + intros scene H Hok. injection H as <-.
      unfold render_model in *.
      destruct (forallb drawable (meshes scene0)) eqn:Hd.
      * destruct (render_model_drawable _ Hd) as (ops & Eops & _ & V).
        rewrite Eops. cbn [fst].
        rewrite V, length_concat_vertices. reflexivity.
      * destruct (render_model_not_drawable _ Hd) as (ops & Eops & _).
        rewrite Eops in Hok. discriminate Hok.
  - rewrite E. split; [|split].
    + intros scene. split; [discriminate|].
      intros (Hfe & Hld & Hne).
      destruct Hbad as [H | [H | (s & H & Hs)]]; congruence.
    + intros e H. now injection H as <-.
    + discriminate.
Qed.

Lemma load_3d_model_result_witness :
  snd (load_3d_model true (Some (mkScene [mkMesh [Vec3 0 0 0] []])))
  = inr (mkScene [mkMesh [Vec3 0 0 0] []])
  /\ snd (load_3d_model true (Some (mkScene []))) = inl (SystemExit 1)
  /\ fst (load_3d_model true (Some (mkScene [mkMesh [Vec3 0 0 0] []])))
     = [MsgLoadingModel;
        MsgModelLoaded 1
          (List.length
             (vertices_sent (fst (render_model (mkScene [mkMesh [Vec3 0 0 0] []])))))].
Proof.
  assert (H : true = true /\ Some (mkScene [mkMesh [Vec3 0 0 0] []])
                             = Some (mkScene [mkMesh [Vec3 0 0 0] []])
              /\ meshes (mkScene [mkMesh [Vec3 0 0 0] []]) <> [])
    by (repeat split; discriminate).
  pose proof (proj2 (proj1 (load_3d_model_result true
                              (Some (mkScene [mkMesh [Vec3 0 0 0] []]))) _) H)
    as Hok.
  split; [exact Hok|]. split.
  - destruct (snd (load_3d_model true (Some (mkScene [])))) as [e|s] eqn:E.
    + f_equal. exact (proj1 (proj2 (load_3d_model_result true (Some (mkScene []))))
                        e E).
    + discriminate E.
  - exact (proj2 (proj2 (load_3d_model_result true
                           (Some (mkScene [mkMesh [Vec3 0 0 0] []]))))
             _ Hok eq_refl).
Defined.

(** ** The loop *)

Lemma handle_events_spec (events : list event) (running : bool) :
  handle_events running events = running && no_quit events.
Proof.
  unfold handle_events, no_quit. revert running.
  induction events as [|e events IH]; intros running.
  - cbn. now rewrite andb_true_r.
  - cbn [fold_left existsb]. rewrite IH.
    destruct e as [|key|]; cbn [is_quit orb negb].
    + now rewrite andb_false_r.
    + destruct (key =? K_ESCAPE)%Z; cbn [orb negb];
        [now rewrite andb_false_r | reflexivity].
    + reflexivity.
Qed.

Lemma main_loop_stops (scene : Scene) (quitting : list event)
    (later : list (list event)) :
  forallb drawable (meshes scene) = true ->
  no_quit quitting = false ->
  forall (before : list (list event)) (st : option Serial * ModelController),
    forallb no_quit before = true ->
    snd (main_loop scene (before ++ quitting :: later) st)
    = Stopped (ticks (S (List.length before)) st)
    /\ flips (fst (main_loop scene (before ++ quitting :: later) st))
       = S (List.length before).
Proof.
  intros Hd Hq. induction before as [|events before IH]; intros st Hb.
  - cbn [List.app main_loop List.length].
    destruct (render_frame_drawable (snd (tick st)) scene Hd) as (E & _ & F).
    rewrite E, handle_events_spec, Hq. cbn [andb fst snd]. now split.
  - cbn [forallb] in Hb. apply andb_true_iff in Hb. destruct Hb as [He Hb].
    cbn [List.app main_loop List.length].
    destruct (render_frame_drawable (snd (tick st)) scene Hd) as (E & _ & F).
    rewrite E, handle_events_spec, He. cbn [andb].
    destruct (IH (tick st) Hb) as [IH1 IH2].
    destruct (main_loop scene (before ++ quitting :: later) (tick st))
      as [ops r]. cbn [fst snd] in *.
    rewrite flips_app, F, IH2, IH1, <- ticks_succ. now split.
Qed.

(** X17: the loop stops after the iteration that sees the quit event, not
    before it.  When the scene is drawable, the first [k] batches of events
    hold neither a [QUIT] nor an Escape key and the next one does, the loop
    makes [k + 1] iterations: it polls the joystick and flips the display
    [k + 1] times; the batches behind are not looked at. *)
Theorem loop_stops_after_quit_frame (scene : Scene)
    (before : list (list event)) (quitting : list event)
    (later : list (list event)) (st : option Serial * ModelController) :
  forallb drawable (meshes scene) = true ->
  forallb no_quit before = true ->
  existsb is_quit quitting = true ->
  snd (main_loop scene (before ++ quitting :: later) st)
  = Stopped (ticks (S (List.length before)) st)
  /\ flips (fst (main_loop scene (before ++ quitting :: later) st))
     = S (List.length before).
Proof.
  intros Hd Hb Hq. apply main_loop_stops; try assumption.
  unfold no_quit. now rewrite Hq.
Qed.

Lemma loop_stops_after_quit_frame_witness :
  snd (main_loop (mkScene [mkMesh [Vec3 0 0 0] []])
         ([[]; [KEYDOWN 32; OtherEvent]] ++ [OtherEvent; KEYDOWN 27] :: [[QUIT]])
         (Some (mkSerial scenario), init))
  = Stopped (ticks 3 (Some (mkSerial scenario), init))
  /\ flips (fst (main_loop (mkScene [mkMesh [Vec3 0 0 0] []])
                   ([[]; [KEYDOWN 32; OtherEvent]]
                    ++ [OtherEvent; KEYDOWN 27] :: [[QUIT]])
                   (Some (mkSerial scenario), init)))
     = 3%nat.
Proof.
  assert (H1 : forallb drawable (meshes (mkScene [mkMesh [Vec3 0 0 0] []])) = true)
    by reflexivity.
  assert (H2 : forallb no_quit [[]; [KEYDOWN 32; OtherEvent]] = true)
    by reflexivity.
  assert (H3 : existsb is_quit [OtherEvent; KEYDOWN 27] = true) by reflexivity.
  exact (loop_stops_after_quit_frame _ [[]; [KEYDOWN 32; OtherEvent]]
           [OtherEvent; KEYDOWN 27] [[QUIT]] _ H1 H2 H3).
Defined.



Lemma main_after_load (w : world) (scene : Scene) :
  snd (load_3d_model (file_exists w) (loaded w)) = inr scene ->
  main w
  = match initialize_serial (opened w) with
    | inl e => mkRun true [] [] None (Some (Some e))
    | inr serial_connection =>
        match main_loop scene (batches w) (serial_connection, init) with
        | (ops, Raised e) => mkRun true ops [] None (Some (Some e))
        | (ops, Unfinished st) => mkRun true ops [] (Some st) None
        | (ops, Stopped st) =>
            mkRun true ops
              (pyassimp_release
               :: (match fst st with
                   | Some _ => [serial_close]
                   | None => []
                   end) ++ [pygame_quit])
              (Some st) (Some None)
        end
    end.
Proof. intros E. unfold main. rewrite E. reflexivity. Qed.




(** X19: without a joystick the program still runs to the quit event.  When
    the model loads and is drawable and the serial port cannot be opened
    ([SerialException]), the loop draws a frame in every iteration up to
    the one that sees the quit event, the controller is still in its
    initial state at the end, the clean-up releases the scene and quits
    pygame without closing a port, and the exit status is 0. *)
Theorem missing_serial_runs_to_quit (scene : Scene)
    (before : list (list event)) (quitting : list event)
    (later : list (list event)) :
  meshes scene <> [] ->
  forallb drawable (meshes scene) = true ->
  forallb no_quit before = true ->
  existsb is_quit quitting = true ->
  let w := mkWorld true (Some scene) (inl SerialException)
             (before ++ quitting :: later) in
  final (main w) = Some (None, init)
  /\ flips (drawn (main w)) = S (List.length before)
  /\ cleaned (main w) = [pyassimp_release; pygame_quit]
  /\ exit_status w = Some 0%Z.
Proof.
  intros Hne Hd Hb Hq w.
  assert (Eload : snd (load_3d_model (file_exists w) (loaded w)) = inr scene).
  { destruct (load_3d_model_cases (file_exists w) (loaded w))
      as [(s & _ & Hld & _ & E) | ([H | [H | (s & Hld & Hs)]] & _)];
      cbn [file_exists loaded w] in *; try discriminate.
    - rewrite E. cbn [snd]. congruence.
    - injection Hld as <-. contradiction. }
  assert (Hq' : no_quit quitting = false) by (unfold no_quit; now rewrite Hq).
  destruct (main_loop_stops scene quitting later Hd Hq' before (None, init) Hb)
    as [Es Ef].
  unfold exit_status. rewrite (main_after_load w scene Eload).
  cbn [opened batches w initialize_serial].
  destruct (main_loop scene (before ++ quitting :: later) (None, init))
    as [ops r]. cbn [fst snd] in Es, Ef. subst r.
  rewrite no_serial_idle.
  cbn [final drawn cleaned ended fst List.app]. now repeat split.
Qed.

Lemma missing_serial_runs_to_quit_witness :
  let w := mkWorld true (Some (mkScene [mkMesh [Vec3 0 0 0; Vec3 1 0 0] []]))
             (inl SerialException) ([[OtherEvent]; []] ++ [QUIT] :: [[]]) in
  final (main w) = Some (None, init)
  /\ flips (drawn (main w)) = 3%nat
  /\ cleaned (main w) = [pyassimp_release; pygame_quit]
  /\ exit_status w = Some 0%Z.
Proof.
  assert (H0 : meshes (mkScene [mkMesh [Vec3 0 0 0; Vec3 1 0 0] []]) <> [])
    by discriminate.
  assert (H1 : forallb drawable
                 (meshes (mkScene [mkMesh [Vec3 0 0 0; Vec3 1 0 0] []])) = true)
    by reflexivity.
  assert (H2 : forallb no_quit [[OtherEvent]; []] = true) by reflexivity.
  assert (H3 : existsb is_quit [QUIT] = true) by reflexivity.
  exact (missing_serial_runs_to_quit _ [[OtherEvent]; []] [QUIT] [[]]
           H0 H1 H2 H3).
Defined.
